(** * UseCaseAgent: permission checks and orchestration (usercase.py)

    A shallow embedding of the [UseCaseAgent] class of [usercase.py] and the
    properties of its constructor, its two permission checks and [run()].

    The class talks to three boto3 clients and to the logging and time
    modules.  Their behaviour is not part of the program: it is left to an
    environment ([Env]) that owns an abstract world state and answers every
    call with a value or a raised exception.  Each method is a function from
    the world to an outcome, a new world and the list of calls it made. *)

From Stdlib Require Import String Ascii List ZArith Bool Lia.
Import ListNotations.
Open Scope string_scope.
Open Scope list_scope.

(** ** Python values used by the class *)

(** Exceptions.  The class tag records what [isinstance] can tell apart
    in the source.  Four tags are for instances of [Exception]:
    [botocore.exceptions.ClientError] (named by three [except] clauses),
    [ValueError] (raised by the constructor), [KeyError] (a failed dict
    subscript) and every other subclass of [Exception], such as botocore's
    [BotoCoreError] family.  Two are for the [BaseException]s that are not
    instances of [Exception] and that a call can raise: [KeyboardInterrupt]
    and [SystemExit].  [exn_str] is [str(e)]. *)
Inductive exn_class : Type :=
| ClientError
| ValueError
| KeyError
| OtherException
| KeyboardInterrupt
| SystemExit.

Record exn : Type := Exn { exn_cls : exn_class; exn_str : string }.

Definition is_ClientError (e : exn) : bool :=
  match exn_cls e with ClientError => true | _ => false end.

(** What [except Exception] catches. *)
Definition is_Exception (e : exn) : bool :=
  match exn_cls e with
  | KeyboardInterrupt | SystemExit => false
  | _ => true
  end.

Inductive result (A : Type) : Type :=
| Ok (a : A)
| Raise (e : exn).
Arguments Ok {A} a.
Arguments Raise {A} e.

(** A dict with string keys, in insertion order. *)
Definition dict (V : Type) : Type := list (string * V).

Fixpoint dict_get {V : Type} (d : dict V) (k : string) : option V :=
  match d with
  | [] => None
  | (k', v) :: d' => if String.eqb k' k then Some v else dict_get d' k
  end.

(** [d[k] = v]: an existing key keeps its position, a new key goes last. *)
Fixpoint dict_set {V : Type} (d : dict V) (k : string) (v : V) : dict V :=
  match d with
  | [] => [(k, v)]
  | (k', v') :: d' =>
      if String.eqb k' k then (k', v) :: d' else (k', v') :: dict_set d' k v
  end.

Definition keys {V : Type} (d : dict V) : list string := map fst d.

(** Values stored in a step record of the summary. *)
Inductive value : Type :=
| VBool (b : bool)
| VStr (s : string).

Definition truthy (v : value) : bool :=
  match v with
  | VBool b => b
  | VStr EmptyString => false
  | VStr _ => true
  end.

Definition str_truthy (s : string) : bool :=
  match s with EmptyString => false | _ => true end.

Definition StepRecord : Type := dict value.
Definition Summary : Type := dict StepRecord.

(** Keyword arguments of [list_objects_v2]. *)
Inductive kwarg : Type :=
| KStr (s : string)
| KInt (z : Z).

(** One entry of ["EvaluationResults"]; every field is read with [.get], so
    each may be missing. *)
Record EvaluationResult : Type := {
  EvalActionName : option string;
  EvalDecision : option string;
  MatchedStatements : option (list string)
}.

(** The dict returned by [simulate_principal_policy]. *)
Record SimulationResponse : Type := {
  EvaluationResults : option (list EvaluationResult)
}.

(** [str.strip(chars)] *)
Fixpoint lstrip (chars : list ascii) (s : string) : string :=
  match s with
  | EmptyString => EmptyString
  | String c s' => if existsb (Ascii.eqb c) chars then lstrip chars s' else s
  end.

Definition string_rev (s : string) : string :=
  string_of_list_ascii (rev (list_ascii_of_string s)).

Definition rstrip (chars : list ascii) (s : string) : string :=
  string_rev (lstrip chars (string_rev s)).

Definition strip (chars : string) (s : string) : string :=
  let cs := list_ascii_of_string chars in rstrip cs (lstrip cs s).

(** ** Calls that leave the class *)

Inductive log_level : Type := INFO | WARNING | ERROR.

Definition NeptuneDenied : Type :=
  (option string * option string * list string)%type.
Definition S3Denied : Type := (option string * option string)%type.

Inductive log_arg : Type :=
| AStr (s : string)
| AExn (e : exn)
| ANeptuneDenied (denied : list NeptuneDenied)
| AS3Denied (denied : list S3Denied).

Inductive io_event : Type :=
| Log (level : log_level) (fmt : string) (args : list log_arg)
| Sleep (seconds : Z)
| Boto3Client (service_name : string)
| SimulatePrincipalPolicy
    (PolicySourceArn : string) (ActionNames ResourceArns : list string)
| ListObjectsV2 (kwargs : dict kwarg).

(** The four steps [run()] calls on [self], named by their summary keys. *)
Inductive step : Type :=
| check_neptune_permissions_step
| check_s3_permissions_step
| generate_csvs_step
| batch_load_step.

Definition step_key (s : step) : string :=
  match s with
  | check_neptune_permissions_step => "check_neptune_permissions"
  | check_s3_permissions_step => "check_s3_permissions"
  | generate_csvs_step => "generate_csvs"
  | batch_load_step => "batch_load"
  end.

(** What [run()] does, as seen from outside: it enters a step method, the
    method makes its calls, and it comes back with a value or an exception. *)
Inductive event : Type :=
| Call (s : step)
| Return (s : step) (r : result bool)
| Io (e : io_event).

(** ** The environment *)

Record Env : Type := {
  World : Type;
  Client : Type;
  boto3_client : string -> World -> result Client * World;
  simulate_principal_policy :
    Client -> string -> list string -> list string ->
    World -> result SimulationResponse * World;
  (* the source discards the listing that comes back *)
  list_objects_v2 : Client -> dict kwarg -> World -> result unit * World
}.

(** ** Programs: world passing, exceptions, and the calls made *)

Definition Prog (env : Env) (E A : Type) : Type :=
  World env -> result A * World env * list E.

Section Programs.
Context {env : Env} {E : Type}.

Definition ret {A : Type} (a : A) : Prog env E A :=
  fun w => (Ok a, w, []).

Definition raise {A : Type} (e : exn) : Prog env E A :=
  fun w => (Raise e, w, []).

Definition bind {A B : Type} (m : Prog env E A) (k : A -> Prog env E B)
  : Prog env E B :=
  fun w =>
    match m w with
    | (Ok a, w1, t1) =>
        match k a w1 with (r, w2, t2) => (r, w2, t1 ++ t2) end
    | (Raise e, w1, t1) => (Raise e, w1, t1)
    end.

Definition emit (e : E) : Prog env E unit :=
  fun w => (Ok tt, w, [e]).

(** [try: m  except <catches> as e: handler e] *)
Definition try_except {A : Type} (m : Prog env E A) (catches : exn -> bool)
    (handler : exn -> Prog env E A) : Prog env E A :=
  fun w =>
    match m w with
    | (Ok a, w1, t1) => (Ok a, w1, t1)
    | (Raise e, w1, t1) =>
        if catches e
        then match handler e w1 with (r, w2, t2) => (r, w2, t1 ++ t2) end
        else (Raise e, w1, t1)
    end.
End Programs.

Declare Scope prog_scope.
Delimit Scope prog_scope with prog.
Notation "x <- m ;; k" := (bind m (fun x => k))
  (at level 100, m at next level, right associativity) : prog_scope.
Notation "m ;; k" := (bind m (fun _ => k))
  (at level 100, right associativity) : prog_scope.
Open Scope prog_scope.

(** [d[k]], raising [KeyError] on a missing key. *)
Definition getitem {env : Env} {E V : Type} (d : dict V) (k : string)
  : Prog env E V :=
  match dict_get d k with
  | Some v => ret v
  | None => raise (Exn KeyError k)
  end.

(** [d[k][f] = v] on a dict of dicts. *)
Definition setitem2 {env : Env} {E : Type}
    (d : Summary) (k f : string) (v : value) : Prog env E Summary :=
  inner <- getitem d k ;;
  ret (dict_set d k (dict_set inner f v)).

(** [d[k][f]] *)
Definition getitem2 {env : Env} {E : Type} (d : Summary) (k f : string)
  : Prog env E value :=
  inner <- getitem d k ;; getitem inner f.

(** ** The class *)

Record UseCaseAgent (env : Env) : Type := {
  principal_arn : string;
  s3_bucket : string;
  s3_prefix : string;
  graph_arn : option string;
  neptune_mode : string;
  iam : Client env;
  s3 : Client env;
  sts : Client env;
  prefix : string;
  neptune_actions : list string;
  s3_actions : list string
}.
Arguments principal_arn {env} _.
Arguments s3_bucket {env} _.
Arguments s3_prefix {env} _.
Arguments graph_arn {env} _.
Arguments neptune_mode {env} _.
Arguments iam {env} _.
Arguments s3 {env} _.
Arguments sts {env} _.
Arguments prefix {env} _.
Arguments neptune_actions {env} _.
Arguments s3_actions {env} _.

Section Methods.
Context {env : Env}.

(** The three calls answered by the environment; the call is recorded
    whether it returns or raises. *)
Definition client (service_name : string) : Prog env io_event (Client env) :=
  fun w =>
    match boto3_client env service_name w with
    | (r, w1) => (r, w1, [Boto3Client service_name])
    end.

Definition iam_simulate_principal_policy (c : Client env)
    (PolicySourceArn : string) (ActionNames ResourceArns : list string)
  : Prog env io_event SimulationResponse :=
  fun w =>
    match simulate_principal_policy env c
            PolicySourceArn ActionNames ResourceArns w with
    | (r, w1) =>
        (r, w1, [SimulatePrincipalPolicy PolicySourceArn ActionNames ResourceArns])
    end.

Definition s3_list_objects_v2 (c : Client env) (kwargs : dict kwarg)
  : Prog env io_event unit :=
  fun w =>
    match list_objects_v2 env c kwargs w with
    | (r, w1) => (r, w1, [ListObjectsV2 kwargs])
    end.

Definition logger (level : log_level) (fmt : string) (args : list log_arg)
  : Prog env io_event unit :=
  emit (Log level fmt args).

(** [UseCaseAgent.__init__] *)
Definition __init__ (principal_arn s3_bucket s3_prefix : string)
    (graph_arn : option string) (neptune_mode : string)
  : Prog env io_event (UseCaseAgent env) :=
  let s3_prefix := strip "/" s3_prefix in
  iam <- client "iam" ;;
  s3 <- client "s3" ;;
  sts <- client "sts" ;;
  prefix <-
    (if String.eqb neptune_mode "graph" then ret "neptune-graph"
     else if String.eqb neptune_mode "db" then ret "neptune-db"
     else raise (Exn ValueError "neptune_mode must be 'graph' or 'db'")) ;;
  ret {| principal_arn := principal_arn;
         s3_bucket := s3_bucket;
         s3_prefix := s3_prefix;
         graph_arn := graph_arn;
         neptune_mode := neptune_mode;
         iam := iam;
         s3 := s3;
         sts := sts;
         prefix := prefix;
         neptune_actions :=
           [ (prefix ++ ":ReadDataViaQuery")%string;
             (prefix ++ ":WriteDataViaQuery")%string;
             (prefix ++ ":DeleteDataViaQuery")%string ];
         s3_actions := ["s3:GetObject"; "s3:ListBucket"] |}.

(** [UseCaseAgent.simulate_permissions] *)
Definition simulate_permissions (self : UseCaseAgent env)
    (actions resource_arns : list string)
  : Prog env io_event SimulationResponse :=
  logger INFO "Simulating permissions for %s" [AStr (principal_arn self)] ;;
  try_except
    (iam_simulate_principal_policy (iam self)
       (principal_arn self) actions resource_arns)
    is_ClientError
    (fun e =>
       logger ERROR "SimulatePrincipalPolicy failed: %s" [AExn e] ;;
       raise e).

(** [resp.get("EvaluationResults", [])] *)
Definition get_EvaluationResults (resp : SimulationResponse)
  : list EvaluationResult :=
  match EvaluationResults resp with Some rs => rs | None => [] end.

(** [decision != "allowed"], where [decision] comes from [.get] *)
Definition not_allowed (decision : option string) : bool :=
  match decision with
  | Some d => negb (String.eqb d "allowed")
  | None => true
  end.

(** The loop of [check_neptune_permissions] that fills [denied]. *)
Definition neptune_denied (results : list EvaluationResult)
  : list NeptuneDenied :=
  fold_left
    (fun denied r =>
       let action := EvalActionName r in
       let decision := EvalDecision r in
       if not_allowed decision
       then denied ++
            [(action, decision,
              match MatchedStatements r with Some ms => ms | None => [] end)]
       else denied)
    results [].

(** [UseCaseAgent.check_neptune_permissions] *)
Definition check_neptune_permissions (self : UseCaseAgent env)
  : Prog env io_event bool :=
  resource_arns <-
    (match graph_arn self with
     | Some arn =>
         if negb (str_truthy arn)
         then
           logger WARNING
             "No graph ARN provided; skipping graph-scoped simulation. You may be using a cluster-based flow."
             [] ;;
           ret ["*"]
         else ret [arn]
     | None =>
         logger WARNING
           "No graph ARN provided; skipping graph-scoped simulation. You may be using a cluster-based flow."
           [] ;;
         ret ["*"]
     end) ;;
  resp <- simulate_permissions self (neptune_actions self) resource_arns ;;
  let denied := neptune_denied (get_EvaluationResults resp) in
  match denied with
  | _ :: _ =>
      logger ERROR "Neptune permission simulation shows DENIED actions: %s"
        [ANeptuneDenied denied] ;;
      ret false
  | [] =>
      logger INFO
        "Neptune permission simulation OK (all required actions allowed)." [] ;;
      ret true
  end.

(** The loop of [check_s3_permissions] that fills [denied]. *)
Definition s3_denied (results : list EvaluationResult) : list S3Denied :=
  fold_left
    (fun denied r =>
       if not_allowed (EvalDecision r)
       then denied ++ [(EvalActionName r, EvalDecision r)]
       else denied)
    results [].

(** The locals [bucket_arn], [object_arn] and [list_kwargs] of
    [check_s3_permissions]. *)
Definition bucket_arn (self : UseCaseAgent env) : string :=
  ("arn:aws:s3:::" ++ s3_bucket self)%string.

Definition object_arn (self : UseCaseAgent env) : string :=
  (if str_truthy (s3_prefix self)
   then "arn:aws:s3:::" ++ s3_bucket self ++ "/" ++ s3_prefix self ++ "/*"
   else "arn:aws:s3:::" ++ s3_bucket self ++ "/*")%string.

Definition list_kwargs (self : UseCaseAgent env) : dict kwarg :=
  let list_kwargs :=
    [("Bucket", KStr (s3_bucket self)); ("MaxKeys", KInt 1)] in
  if str_truthy (s3_prefix self)
  then dict_set list_kwargs "Prefix" (KStr (s3_prefix self))
  else list_kwargs.

(** [UseCaseAgent.check_s3_permissions] *)
Definition check_s3_permissions (self : UseCaseAgent env)
  : Prog env io_event bool :=
  r <- try_except
         (resp <- simulate_permissions self (s3_actions self)
                    [bucket_arn self; object_arn self] ;;
          ret (Some resp))
         is_ClientError
         (fun _ => ret None) ;;
  match r with
  | None => ret false
  | Some resp =>
      let denied := s3_denied (get_EvaluationResults resp) in
      match denied with
      | _ :: _ =>
          logger ERROR "S3 permission simulation shows DENIED actions: %s"
            [AS3Denied denied] ;;
          ret false
      | [] =>
          try_except
            (logger INFO
               "Attempting S3 ListObjectsV2 on bucket to validate access..." [] ;;
             s3_list_objects_v2 (s3 self) (list_kwargs self) ;;
             logger INFO "S3 access check OK." [] ;;
             ret true)
            is_ClientError
            (fun e =>
               logger ERROR "S3 call failed: %s" [AExn e] ;;
               ret false)
      end
  end.

(** [UseCaseAgent.generate_csvs], the stub the repository ships *)
Definition generate_csvs (self : UseCaseAgent env) : Prog env io_event bool :=
  logger INFO "Running CSV generation step (stub)..." [] ;;
  emit (Sleep 1) ;;
  logger INFO
    "CSV generation completed (stub). CSVs should be in s3://%s/%s"
    [AStr (s3_bucket self); AStr (s3_prefix self)] ;;
  ret true.

(** [UseCaseAgent.batch_load], the stub the repository ships *)
Definition batch_load (self : UseCaseAgent env) : Prog env io_event bool :=
  logger INFO
    "Starting batch load step (stub). Replace this method with actual Neptune load call."
    [] ;;
  emit (Sleep 1) ;;
  logger INFO "Batch load simulated as SUCCESS (replace with real call)." [] ;;
  ret true.
End Methods.

(** ** [run()] *)

(** A [try] block of [run()] either falls through to the next statement with
    the summary as it stands, or leaves [run()] by [return summary]. *)
Inductive flow : Type :=
| Next (summary : Summary)
| ReturnSummary (summary : Summary).

Section Run.
Context {env : Env}.

(** [run()] reaches its steps through [self], so a subclass or an
    integrator's replacement of the two stubs (the module docstring lists
    them under "What to customize") is what gets called.  The two
    variables stand for whatever [self.generate_csvs] and
    [self.batch_load] resolve to; a step body can log, sleep and call the
    clients, and returns a bool or raises. *)
Variable self_generate_csvs : UseCaseAgent env -> Prog env io_event bool.
Variable self_batch_load : UseCaseAgent env -> Prog env io_event bool.

(** [self.<step>()] as [run()] sees it: the call, what the body did, and
    how it came back. *)
Definition step_trace (s : step) (t : list io_event) (r : result bool)
  : list event :=
  Call s :: map Io t ++ [Return s r].

Definition invoke (s : step) (body : Prog env io_event bool)
  : Prog env event bool :=
  fun w =>
    match body w with
    | (r, w1, t) => (r, w1, step_trace s t r)
    end.

Definition run_logger (level : log_level) (fmt : string)
  : Prog env event unit :=
  emit (Io (Log level fmt [])).

Definition initial_summary (self : UseCaseAgent env) : Summary :=
  [ ("identify_principal",
      [("ok", VBool true); ("principal_arn", VStr (principal_arn self))]);
    ("check_neptune_permissions", [("ok", VBool false)]);
    ("check_s3_permissions", [("ok", VBool false)]);
    ("generate_csvs", [("ok", VBool false)]);
    ("batch_load", [("ok", VBool false)]) ].

(** [UseCaseAgent.run] *)
Definition run (self : UseCaseAgent env) : Prog env event Summary :=
  let summary := initial_summary self in
  (* 1) Neptune permission check *)
  f <- try_except
         (ok_neptune <- invoke check_neptune_permissions_step
                          (check_neptune_permissions self) ;;
          summary <- setitem2 summary "check_neptune_permissions" "ok"
                       (VBool ok_neptune) ;;
          ret (Next summary))
         is_Exception
         (fun e =>
            summary <- setitem2 summary "check_neptune_permissions" "error"
                         (VStr (exn_str e)) ;;
            run_logger ERROR "Error while checking Neptune permissions" ;;
            ret (ReturnSummary summary)) ;;
  match f with
  | ReturnSummary summary => ret summary
  | Next summary =>
  (* 2) S3 permission check *)
  f <- try_except
         (ok_s3 <- invoke check_s3_permissions_step
                     (check_s3_permissions self) ;;
          summary <- setitem2 summary "check_s3_permissions" "ok"
                       (VBool ok_s3) ;;
          if negb ok_s3
          then
            run_logger ERROR
              "S3 permissions check failed; aborting before CSV generation/batch load." ;;
            ret (ReturnSummary summary)
          else ret (Next summary))
         is_Exception
         (fun e =>
            summary <- setitem2 summary "check_s3_permissions" "error"
                         (VStr (exn_str e)) ;;
            run_logger ERROR "Error while checking S3 permissions" ;;
            ret (ReturnSummary summary)) ;;
  match f with
  | ReturnSummary summary => ret summary
  | Next summary =>
  (* 3) Generate CSVs *)
  f <- try_except
         (ok_gen <- invoke generate_csvs_step (self_generate_csvs self) ;;
          summary <- setitem2 summary "generate_csvs" "ok" (VBool ok_gen) ;;
          if negb ok_gen
          then
            run_logger ERROR "CSV generation failed; aborting." ;;
            ret (ReturnSummary summary)
          else ret (Next summary))
         is_Exception
         (fun e =>
            summary <- setitem2 summary "generate_csvs" "error"
                         (VStr (exn_str e)) ;;
            run_logger ERROR "Error while generating CSVs" ;;
            ret (ReturnSummary summary)) ;;
  match f with
  | ReturnSummary summary => ret summary
  | Next summary =>
  (* 4) Batch load *)
  ok <- getitem2 summary "check_neptune_permissions" "ok" ;;
  if negb (truthy ok)
  then
    run_logger ERROR
      "Neptune permissions insufficient; cannot perform batch load." ;;
    ret summary
  else
    summary <-
      try_except
        (ok_load <- invoke batch_load_step (self_batch_load self) ;;
         summary <- setitem2 summary "batch_load" "ok" (VBool ok_load) ;;
         (if negb ok_load
          then run_logger ERROR "Batch load failed (see logs)."
          else run_logger INFO "Workflow completed successfully.") ;;
         ret summary)
        is_Exception
        (fun e =>
           summary <- setitem2 summary "batch_load" "error"
                        (VStr (exn_str e)) ;;
           run_logger ERROR "Error during batch load" ;;
           ret summary) ;;
    ret summary
  end end end.
End Run.

(** [run()] on the class as the repository ships it. *)
Definition UseCaseAgent_run {env : Env} (self : UseCaseAgent env)
  : Prog env event Summary :=
  run generate_csvs batch_load self.

(** ** Reading summaries and traces *)

(** [summary[<step>][field]], if both keys are there. *)
Definition recorded (summary : Summary) (s : step) (field : string)
  : option value :=
  match dict_get summary (step_key s) with
  | Some rec => dict_get rec field
  | None => None
  end.

(** The three shapes a step record takes: never touched, [ok] assigned,
    [error] assigned. *)
Definition default_record : StepRecord := [("ok", VBool false)].

Definition returned (b : bool) : StepRecord := [("ok", VBool b)].

Definition raised (e : exn) : StepRecord :=
  [("ok", VBool false); ("error", VStr (exn_str e))].

Definition summary_with {env : Env} (self : UseCaseAgent env)
    (neptune s3 generate load : StepRecord) : Summary :=
  [ ("identify_principal",
      [("ok", VBool true); ("principal_arn", VStr (principal_arn self))]);
    ("check_neptune_permissions", neptune);
    ("check_s3_permissions", s3);
    ("generate_csvs", generate);
    ("batch_load", load) ].

Definition log_line (level : log_level) (fmt : string) : event :=
  Io (Log level fmt []).

(** Position of a step in the pipeline. *)
Definition step_index (s : step) : nat :=
  match s with
  | check_neptune_permissions_step => 0
  | check_s3_permissions_step => 1
  | generate_csvs_step => 2
  | batch_load_step => 3
  end.

Definition before (s s' : step) : Prop := step_index s < step_index s'.

(** A step reported failure or raised. *)
Definition failed (t : list event) (s : step) : Prop :=
  In (Return s (Ok false)) t \/ exists e, In (Return s (Raise e)) t.

(** The steps entered in a trace, and how each came back. *)
Definition calls (t : list event) : list step :=
  flat_map (fun e => match e with Call s => [s] | _ => [] end) t.

Definition returns (t : list event) : list (step * result bool) :=
  flat_map (fun e => match e with Return s r => [(s, r)] | _ => [] end) t.

(** The arguments of every [simulate_principal_policy] call of a trace. *)
Definition simulate_calls (t : list io_event)
  : list (string * list string * list string) :=
  flat_map
    (fun e =>
       match e with
       | SimulatePrincipalPolicy p actions resources => [(p, actions, resources)]
       | _ => []
       end) t.

(** The services for which [boto3.client] was called. *)
Definition handles_created (t : list io_event) : list string :=
  flat_map
    (fun e => match e with Boto3Client n => [n] | _ => [] end) t.

(** The keyword arguments of every [list_objects_v2] call of a trace. *)
Definition probes (t : list io_event) : list (dict kwarg) :=
  flat_map
    (fun e => match e with ListObjectsV2 kw => [kw] | _ => [] end) t.

(** A denied evaluation result, and the tuple [check_neptune_permissions]
    collects for it. *)
Definition is_denied (r : EvaluationResult) : bool :=
  not_allowed (EvalDecision r).

Definition denied_entry (r : EvaluationResult) : NeptuneDenied :=
  (EvalActionName r, EvalDecision r,
   match MatchedStatements r with Some ms => ms | None => [] end).

Definition denied_action (d : NeptuneDenied) : option string := fst (fst d).

Definition action_eq_dec (x y : option string) : {x = y} + {x <> y}.
Proof. decide equality. apply string_dec. Defined.

(** A result that is denied and is about the action [a]. *)
Definition denies (a : option string) (r : EvaluationResult) : bool :=
  is_denied r && (if action_eq_dec (EvalActionName r) a then true else false).

(** The resource scope [check_neptune_permissions] is expected to use:
    Python's [not self.graph_arn] holds for [None] and for the empty
    string, so only a non-empty identifier counts as configured. *)
Definition configured_graph_arn {env : Env} (self : UseCaseAgent env)
  : option string :=
  match graph_arn self with
  | Some arn => if str_truthy arn then Some arn else None
  | None => None
  end.

Definition graph_scope {env : Env} (self : UseCaseAgent env) : list string :=
  match configured_graph_arn self with
  | Some arn => [arn]
  | None => ["*"]
  end.

(** ** The ways through [run()] *)

Section Paths.
Context {env : Env}.
Variable self_generate_csvs : UseCaseAgent env -> Prog env io_event bool.
Variable self_batch_load : UseCaseAgent env -> Prog env io_event bool.
Variable self : UseCaseAgent env.

Let N := check_neptune_permissions_step.
Let S := check_s3_permissions_step.
Let G := generate_csvs_step.
Let L := batch_load_step.

(** [RunPath w summary w' t]: started in world [w], [run()] can return
    [summary], leaving world [w'] and having done [t].  One constructor
    per [return summary] of the source; a step that raised was caught by
    [except Exception]. *)
Inductive RunPath (w : World env)
  : Summary -> World env -> list event -> Prop :=
| path_neptune_raised e w1 t1 :
    check_neptune_permissions self w = (Raise e, w1, t1) ->
    is_Exception e = true ->
    RunPath w
      (summary_with self (raised e) default_record default_record
         default_record)
      w1
      (step_trace N t1 (Raise e) ++
       [log_line ERROR "Error while checking Neptune permissions"])
| path_s3_raised bn w1 t1 e w2 t2 :
    check_neptune_permissions self w = (Ok bn, w1, t1) ->
    check_s3_permissions self w1 = (Raise e, w2, t2) ->
    is_Exception e = true ->
    RunPath w
      (summary_with self (returned bn) (raised e) default_record
         default_record)
      w2
      (step_trace N t1 (Ok bn) ++ step_trace S t2 (Raise e) ++
       [log_line ERROR "Error while checking S3 permissions"])
| path_s3_failed bn w1 t1 w2 t2 :
    check_neptune_permissions self w = (Ok bn, w1, t1) ->
    check_s3_permissions self w1 = (Ok false, w2, t2) ->
    RunPath w
      (summary_with self (returned bn) (returned false) default_record
         default_record)
      w2
      (step_trace N t1 (Ok bn) ++ step_trace S t2 (Ok false) ++
       [log_line ERROR
          "S3 permissions check failed; aborting before CSV generation/batch load."])
| path_generate_raised bn w1 t1 w2 t2 e w3 t3 :
    check_neptune_permissions self w = (Ok bn, w1, t1) ->
    check_s3_permissions self w1 = (Ok true, w2, t2) ->
    self_generate_csvs self w2 = (Raise e, w3, t3) ->
    is_Exception e = true ->
    RunPath w
      (summary_with self (returned bn) (returned true) (raised e)
         default_record)
      w3
      (step_trace N t1 (Ok bn) ++ step_trace S t2 (Ok true) ++
       step_trace G t3 (Raise e) ++
       [log_line ERROR "Error while generating CSVs"])
| path_generate_failed bn w1 t1 w2 t2 w3 t3 :
    check_neptune_permissions self w = (Ok bn, w1, t1) ->
    check_s3_permissions self w1 = (Ok true, w2, t2) ->
    self_generate_csvs self w2 = (Ok false, w3, t3) ->
    RunPath w
      (summary_with self (returned bn) (returned true) (returned false)
         default_record)
      w3
      (step_trace N t1 (Ok bn) ++ step_trace S t2 (Ok true) ++
       step_trace G t3 (Ok false) ++
       [log_line ERROR "CSV generation failed; aborting."])
| path_gate_closed w1 t1 w2 t2 w3 t3 :
    check_neptune_permissions self w = (Ok false, w1, t1) ->
    check_s3_permissions self w1 = (Ok true, w2, t2) ->
    self_generate_csvs self w2 = (Ok true, w3, t3) ->
    RunPath w
      (summary_with self (returned false) (returned true) (returned true)
         default_record)
      w3
      (step_trace N t1 (Ok false) ++ step_trace S t2 (Ok true) ++
       step_trace G t3 (Ok true) ++
       [log_line ERROR
          "Neptune permissions insufficient; cannot perform batch load."])
| path_load_raised w1 t1 w2 t2 w3 t3 e w4 t4 :
    check_neptune_permissions self w = (Ok true, w1, t1) ->
    check_s3_permissions self w1 = (Ok true, w2, t2) ->
    self_generate_csvs self w2 = (Ok true, w3, t3) ->
    self_batch_load self w3 = (Raise e, w4, t4) ->
    is_Exception e = true ->
    RunPath w
      (summary_with self (returned true) (returned true) (returned true)
         (raised e))
      w4
      (step_trace N t1 (Ok true) ++ step_trace S t2 (Ok true) ++
       step_trace G t3 (Ok true) ++ step_trace L t4 (Raise e) ++
       [log_line ERROR "Error during batch load"])
| path_load_returned w1 t1 w2 t2 w3 t3 bl w4 t4 :
    check_neptune_permissions self w = (Ok true, w1, t1) ->
    check_s3_permissions self w1 = (Ok true, w2, t2) ->
    self_generate_csvs self w2 = (Ok true, w3, t3) ->
    self_batch_load self w3 = (Ok bl, w4, t4) ->
    RunPath w
      (summary_with self (returned true) (returned true) (returned true)
         (returned bl))
      w4
      (step_trace N t1 (Ok true) ++ step_trace S t2 (Ok true) ++
       step_trace G t3 (Ok true) ++ step_trace L t4 (Ok bl) ++
       [log_line (if bl then INFO else ERROR)
          (if bl
           then "Workflow completed successfully."
           else "Batch load failed (see logs).")]).

(** [EscapePath w e w' t]: started in world [w], [run()] can raise [e],
    leaving world [w'] and having done [t].  This happens when a step
    raises something [except Exception] does not catch; one constructor
    per step. *)
Inductive EscapePath (w : World env)
  : exn -> World env -> list event -> Prop :=
| escape_neptune e w1 t1 :
    check_neptune_permissions self w = (Raise e, w1, t1) ->
    is_Exception e = false ->
    EscapePath w e w1 (step_trace N t1 (Raise e))
| escape_s3 bn w1 t1 e w2 t2 :
    check_neptune_permissions self w = (Ok bn, w1, t1) ->
    check_s3_permissions self w1 = (Raise e, w2, t2) ->
    is_Exception e = false ->
    EscapePath w e w2
      (step_trace N t1 (Ok bn) ++ step_trace S t2 (Raise e))
| escape_generate bn w1 t1 w2 t2 e w3 t3 :
    check_neptune_permissions self w = (Ok bn, w1, t1) ->
    check_s3_permissions self w1 = (Ok true, w2, t2) ->
    self_generate_csvs self w2 = (Raise e, w3, t3) ->
    is_Exception e = false ->
    EscapePath w e w3
      (step_trace N t1 (Ok bn) ++ step_trace S t2 (Ok true) ++
       step_trace G t3 (Raise e))
| escape_load w1 t1 w2 t2 w3 t3 e w4 t4 :
    check_neptune_permissions self w = (Ok true, w1, t1) ->
    check_s3_permissions self w1 = (Ok true, w2, t2) ->
    self_generate_csvs self w2 = (Ok true, w3, t3) ->
    self_batch_load self w3 = (Raise e, w4, t4) ->
    is_Exception e = false ->
    EscapePath w e w4
      (step_trace N t1 (Ok true) ++ step_trace S t2 (Ok true) ++
       step_trace G t3 (Ok true) ++ step_trace L t4 (Raise e)).

(** How a run can end. *)
Definition RunOutcome (w : World env) (r : result Summary) (w' : World env)
    (t : list event) : Prop :=
  match r with
  | Ok summary => RunPath w summary w' t
  | Raise e => EscapePath w e w' t
  end.
End Paths.

(** ** The short-circuit rule as the specification words it

    "Once any step before the final one reports failure or raises, no
    subsequent step's collaborator is invoked, and the returned summary's
    later-step entries remain at their default." *)
Definition claimed_short_circuit (summary : Summary) (t : list event) : Prop :=
  forall s s', before s s' -> failed t s ->
    ~ In (Call s') t /\ dict_get summary (step_key s') = Some default_record.

(** ** The rule on exceptions as the specification words it

    "The run always terminates with a Run Summary ...; no exception is ever
    allowed to escape [run()] itself." *)
Definition claimed_run_never_raises {env : Env}
    (gen load : UseCaseAgent env -> Prog env io_event bool)
    (self : UseCaseAgent env) (w : World env) : Prop :=
  exists summary w' t, run gen load self w = (Ok summary, w', t).

(** ** The rule on the denial list as the specification words it

    "If any single action is denied, it returns false and every denied
    action appears in the collected denial list exactly once." *)
Definition claimed_denied_action_once {env : Env}
    (self : UseCaseAgent env) (w : World env) : Prop :=
  forall resp w1,
    simulate_principal_policy env (iam self) (principal_arn self)
      (neptune_actions self) (graph_scope self) w = (Ok resp, w1) ->
    forall r, In r (get_EvaluationResults resp) ->
      EvalDecision r <> Some "allowed" ->
      count_occ action_eq_dec
        (map denied_action (neptune_denied (get_EvaluationResults resp)))
        (EvalActionName r) = 1.

(** ** Two rules on the S3 check as the specification words them

    "[checkStoragePermissions] returns false whenever the simulation call
    raises, without propagating the exception." *)
Definition claimed_simulation_error_is_false {env : Env}
    (self : UseCaseAgent env) (w : World env) : Prop :=
  forall e w1,
    simulate_principal_policy env (iam self) (principal_arn self)
      (s3_actions self) [bucket_arn self; object_arn self] w = (Raise e, w1) ->
    exists w' t, check_s3_permissions self w = (Ok false, w', t).

(** "If either condition fails (any denied decision, or the probe raising)
    it returns false": the part on the probe. *)
Definition claimed_probe_error_is_false {env : Env}
    (self : UseCaseAgent env) (w : World env) : Prop :=
  forall resp w1 e w2,
    simulate_principal_policy env (iam self) (principal_arn self)
      (s3_actions self) [bucket_arn self; object_arn self] w = (Ok resp, w1) ->
    list_objects_v2 env (s3 self) (list_kwargs self) w1 = (Raise e, w2) ->
    exists w' t, check_s3_permissions self w = (Ok false, w', t).

(** ** The constructor rule as the specification words it

    "For any mode flag outside the two recognized values, construction
    always fails with a configuration error and no collaborator handles are
    created." *)
Definition claimed_no_handles {env : Env}
    (principal_arn s3_bucket s3_prefix : string) (graph_arn : option string)
    (neptune_mode : string) (w : World env) : Prop :=
  exists e w1 t,
    __init__ principal_arn s3_bucket s3_prefix graph_arn neptune_mode w
      = (Raise e, w1, t) /\
    exn_cls e = ValueError /\
    handles_created t = [].

(** ** A scripted environment

    A fake for tests: clients are their service names, the world is the
    queue of answers still to be given by [simulate_principal_policy], and
    [list_objects_v2] always gives the same answer. *)

Definition script_exhausted : exn := Exn OtherException "no scripted answer left".

Definition scripted (probe : result unit) : Env :=
  {| World := list (result SimulationResponse);
     Client := string;
     boto3_client := fun service_name w => (Ok service_name, w);
     simulate_principal_policy :=
       fun _ _ _ _ w =>
         match w with
         | r :: w1 => (r, w1)
         | [] => (Raise script_exhausted, [])
         end;
     list_objects_v2 := fun _ _ w => (probe, w) |}.

Definition evaluation (action decision : string) : EvaluationResult :=
  {| EvalActionName := Some action;
     EvalDecision := Some decision;
     MatchedStatements := Some [] |}.

Definition response (rs : list EvaluationResult) : SimulationResponse :=
  {| EvaluationResults := Some rs |}.

Definition all_allowed (actions : list string) : SimulationResponse :=
  response (map (fun a => evaluation a "allowed") actions).

(** The agent of the module's [__main__] block, built by hand on the
    scripted clients. *)
Definition example_agent (probe : result unit) (graph_arn : option string)
  : UseCaseAgent (scripted probe) :=
  {| principal_arn := "arn:aws:iam::123456789012:role/YourLambdaExecutionRole";
     s3_bucket := "your-csv-bucket-name";
     s3_prefix := "neptune/csvs";
     graph_arn := graph_arn;
     neptune_mode := "graph";
     iam := "iam" : Client (scripted probe);
     s3 := "s3" : Client (scripted probe);
     sts := "sts" : Client (scripted probe);
     prefix := "neptune-graph";
     neptune_actions :=
       [ "neptune-graph:ReadDataViaQuery";
         "neptune-graph:WriteDataViaQuery";
         "neptune-graph:DeleteDataViaQuery" ];
     s3_actions := ["s3:GetObject"; "s3:ListBucket"] |}.

Definition example_graph_arn : string :=
  "arn:aws:neptune-graph:us-east-1:123456789012:graph/g-abcdefgh".

(** One graph action denied, everything else in order. *)
Definition denied_graph_world (self : UseCaseAgent (scripted (Ok tt)))
  : World (scripted (Ok tt)) :=
  [ Ok (response [evaluation "neptune-graph:WriteDataViaQuery" "implicitDeny"]);
    Ok (all_allowed (s3_actions self)) ].

(** One action allowed, two denied. *)
Definition mixed_response : SimulationResponse :=
  response
    [ evaluation "neptune-graph:ReadDataViaQuery" "allowed";
      evaluation "neptune-graph:WriteDataViaQuery" "implicitDeny";
      evaluation "neptune-graph:DeleteDataViaQuery" "explicitDeny" ].

(** The same action denied in two results. *)
Definition twice_denied_response : SimulationResponse :=
  response
    [ evaluation "neptune-graph:WriteDataViaQuery" "implicitDeny";
      evaluation "neptune-graph:WriteDataViaQuery" "explicitDeny" ].

(** The S3 simulation cannot reach its endpoint. *)
Definition unreachable_s3_world (self : UseCaseAgent (scripted (Ok tt)))
  : World (scripted (Ok tt)) :=
  [ Ok (all_allowed (neptune_actions self));
    Raise (Exn OtherException "Could not connect to the endpoint URL") ].

(** The user presses Ctrl-C while the S3 simulation is under way. *)
Definition interrupted_s3_world (self : UseCaseAgent (scripted (Ok tt)))
  : World (scripted (Ok tt)) :=
  [ Ok (all_allowed (neptune_actions self));
    Raise (Exn KeyboardInterrupt EmptyString) ].

(** An environment without a region for S3: the IAM client is created, the
    S3 client is not. *)
Definition no_region : exn := Exn OtherException "You must specify a region.".

Definition without_s3 : Env :=
  {| World := unit;
     Client := string;
     boto3_client :=
       fun service_name w =>
         if String.eqb service_name "s3"
         then (Raise no_region, w)
         else (Ok service_name, w);
     simulate_principal_policy := fun _ _ _ _ w => (Raise script_exhausted, w);
     list_objects_v2 := fun _ _ w => (Raise script_exhausted, w) |}.

(** ** The [__main__] block *)

(** What [print] is given: a plain string, or the f-string
    ["- {k}: {v}"] of a summary item, kept as its two parts. *)
Inductive printed_text : Type :=
| Text (s : string)
| SummaryItem (k : string) (v : StepRecord).

(** What the script does: the calls of the constructor, the trace of
    [run()], and the lines it prints. *)
Inductive main_event : Type :=
| Constructing (e : io_event)
| Running (e : event)
| Print (text : printed_text).

Definition lift {env : Env} {E E' A : Type} (f : E -> E')
    (m : Prog env E A) : Prog env E' A :=
  fun w => match m w with (r, w1, t) => (r, w1, map f t) end.

(** [for x in xs: body x] *)
Fixpoint for_each {env : Env} {E A : Type} (xs : list A)
    (body : A -> Prog env E unit) : Prog env E unit :=
  match xs with
  | [] => ret tt
  | x :: xs' => body x ;; for_each xs' body
  end.

Definition newline : string := String (ascii_of_nat 10) EmptyString.

(** The line of the summary item [kv]. *)
Definition item (kv : string * StepRecord) : printed_text :=
  SummaryItem (fst kv) (snd kv).

Section Main.
Context {env : Env}.

(** [print] writes to the standard output, which is outside the program:
    the write can fail (a closed pipe, a character the terminal cannot
    encode, an interrupt). *)
Variable print : printed_text -> World env -> result unit * World env.

(** A call of [print]; the call is recorded whether it returns or raises. *)
Definition say (x : printed_text) : Prog env main_event unit :=
  fun w => match print x w with (r, w1) => (r, w1, [Print x]) end.

(** The body of [if __name__ == "__main__":] *)
Definition main : Prog env main_event unit :=
  let principal_arn :=
    "arn:aws:iam::123456789012:role/YourLambdaExecutionRole" in
  let s3_bucket := "your-csv-bucket-name" in
  let s3_prefix := "neptune/csvs" in
  let graph_arn :=
    "arn:aws:neptune-graph:us-east-1:123456789012:graph/g-abcdefgh" in
  agent <- lift Constructing
             (__init__ principal_arn s3_bucket s3_prefix (Some graph_arn)
                "graph") ;;
  summary <- lift Running (UseCaseAgent_run agent) ;;
  say (Text (newline ++ "SUMMARY:")%string) ;;
  for_each summary (fun kv => say (item kv)).
End Main.

(** The agent the script builds, on the three clients it was given. *)
Definition script_agent {env : Env} (c1 c2 c3 : Client env)
  : UseCaseAgent env :=
  {| principal_arn := "arn:aws:iam::123456789012:role/YourLambdaExecutionRole";
     s3_bucket := "your-csv-bucket-name";
     s3_prefix := "neptune/csvs";
     graph_arn :=
       Some "arn:aws:neptune-graph:us-east-1:123456789012:graph/g-abcdefgh";
     neptune_mode := "graph";
     iam := c1;
     s3 := c2;
     sts := c3;
     prefix := "neptune-graph";
     neptune_actions :=
       [ "neptune-graph:ReadDataViaQuery";
         "neptune-graph:WriteDataViaQuery";
         "neptune-graph:DeleteDataViaQuery" ];
     s3_actions := ["s3:GetObject"; "s3:ListBucket"] |}.

(** The three client requests of the constructor. *)
Definition client_requests : list main_event :=
  [ Constructing (Boto3Client "iam"); Constructing (Boto3Client "s3");
    Constructing (Boto3Client "sts") ].

(** A standard output that takes every line. *)
Definition stdout_open {env : Env} (x : printed_text) (w : World env)
  : result unit * World env :=
  (Ok tt, w).

(** ** More readings of a trace *)

(** The order in which [run()] goes through its steps. *)
Definition pipeline : list step :=
  [ check_neptune_permissions_step; check_s3_permissions_step;
    generate_csvs_step; batch_load_step ].

(** The call and return marks of a run, without what the step bodies did
    and what [run()] logged. *)
Definition marks (t : list event) : list event :=
  filter (fun e => match e with Io _ => false | _ => true end) t.

(** The marks of steps that are entered one after the other, each coming
    back with its outcome before the next is entered. *)
Definition in_turn (steps : list step) (outcomes : list (result bool))
  : list event :=
  flat_map (fun p => [Call (fst p); Return (fst p) (snd p)])
    (combine steps outcomes).

(** The two steps that are stubs in the repository. *)
Definition is_stub (s : step) : bool :=
  match s with
  | generate_csvs_step | batch_load_step => true
  | _ => false
  end.

(** What the step bodies of a run did, without the call and return marks. *)
Definition io_events (t : list event) : list io_event :=
  flat_map (fun e => match e with Io e => [e] | _ => [] end) t.

(** The sleeps of a trace, in seconds. *)
Definition sleeps (t : list io_event) : list Z :=
  flat_map (fun e => match e with Sleep n => [n] | _ => [] end) t.

(** * Testing.py: the quote animation

    The script draws from [random], writes to the terminal, sleeps and
    calls [os.system].  All of this is outside the program: the machine is
    an abstract state with functions that draw a number, write, sleep and
    run a command, each of which returns or raises (a closed pipe, a
    character the terminal cannot encode, an interrupt); [os.name] is a
    parameter. *)

Module Testing.

Inductive console_event : Type :=
| System (command : string)
| Stdout (s : string)
| SleepMs (milliseconds : Z).

Definition esc : string := String (ascii_of_nat 27) EmptyString.

Definition sparkles : string :=
  String (ascii_of_nat 226)
    (String (ascii_of_nat 156) (String (ascii_of_nat 168) EmptyString)).

Definition quotes : list string :=
  [ "Believe you can and you're halfway there.";
    "Every moment is a fresh beginning.";
    "Dream big. Start small. Act now.";
    "Do something today that your future self will thank you for.";
    "Success is not final, failure is not fatal." ].

Definition colors : list string :=
  [ (esc ++ "[91m")%string;
    (esc ++ "[92m")%string;
    (esc ++ "[93m")%string;
    (esc ++ "[94m")%string;
    (esc ++ "[95m")%string;
    (esc ++ "[96m")%string ].

(** The characters a [for] loop over an ASCII string goes through. *)
Definition chars_of (s : string) : list string :=
  map (fun a => String a EmptyString) (list_ascii_of_string s).

Section Script.
Variable Host : Type.
Variable randbelow : nat -> Host -> result nat * Host.
Variable os_name : string.
Variable stdout_write : string -> Host -> result unit * Host.
Variable time_sleep : Z -> Host -> result unit * Host.
Variable os_system : string -> Host -> result Z * Host.

Definition Script (A : Type) : Type :=
  Host -> result A * Host * list console_event.

Definition pure {A : Type} (a : A) : Script A := fun g => (Ok a, g, []).

Definition and_then {A B : Type} (m : Script A) (k : A -> Script B)
  : Script B :=
  fun g =>
    match m g with
    | (Ok a, g1, t1) => match k a g1 with (r, g2, t2) => (r, g2, t1 ++ t2) end
    | (Raise e, g1, t1) => (Raise e, g1, t1)
    end.

(** The three calls that leave the script; each is recorded whether it
    returns or raises.  [write s] is [print(s, end="")]; a plain
    [print(s)] writes [s] and a newline.  [sleep] takes milliseconds. *)
Definition write (s : string) : Script unit :=
  fun g => match stdout_write s g with (r, g1) => (r, g1, [Stdout s]) end.

Definition sleep (milliseconds : Z) : Script unit :=
  fun g =>
    match time_sleep milliseconds g with
    | (r, g1) => (r, g1, [SleepMs milliseconds])
    end.

Definition system (command : string) : Script Z :=
  fun g => match os_system command g with (r, g1) => (r, g1, [System command]) end.

(** [random.choice(seq)]: [IndexError] on an empty sequence, otherwise
    the element at a drawn index below the length. *)
Definition choice {A : Type} (seq : list A) : Script A :=
  fun g =>
    match seq with
    | [] =>
        (Raise (Exn OtherException "Cannot choose from an empty sequence"),
         g, [])
    | _ :: _ =>
        match randbelow (length seq) g with
        | (Ok i, g1) =>
            match nth_error seq (i mod length seq) with
            | Some x => (Ok x, g1, [])
            | None =>
                (Raise (Exn OtherException "list index out of range"), g1, [])
            end
        | (Raise e, g1) => (Raise e, g1, [])
        end
    end.

(** [clear_screen] *)
Definition clear_screen : Script unit :=
  and_then (system (if String.eqb os_name "nt" then "cls" else "clear"))
    (fun _ => pure tt).

(** The loop of [animate_text], over the characters of the text. *)
Fixpoint animate_loop (text : list string) : Script unit :=
  match text with
  | [] => pure tt
  | char :: rest =>
      and_then (choice colors) (fun color =>
      and_then (write (color ++ char)%string) (fun _ =>
      and_then (sleep 50) (fun _ =>
      animate_loop rest)))
  end.

(** [animate_text] *)
Definition animate_text (text : list string) : Script unit :=
  and_then (animate_loop text) (fun _ =>
  write (esc ++ "[0m" ++ newline)%string).

(** The body of [if __name__ == "__main__":] *)
Definition main : Script unit :=
  and_then clear_screen (fun _ =>
  and_then
    (write (newline ++ sparkles ++ " Motivational Quote Generator "
              ++ sparkles ++ newline ++ newline)%string) (fun _ =>
  and_then (sleep 1000) (fun _ =>
  and_then (choice quotes) (fun quote =>
  animate_text (chars_of quote))))).

(** [e] was raised by a draw, by a write or by a sleep. *)
Definition raised_outside (e : exn) : Prop :=
  (exists n g g1, randbelow n g = (Raise e, g1)) \/
  (exists s g g1, stdout_write s g = (Raise e, g1)) \/
  (exists ms g g1, time_sleep ms g = (Raise e, g1)).
End Script.

(** What the loop over [text] writes and waits with the colors [cs], and
    what a whole animation does. *)
Definition frames (cs text : list string) : list console_event :=
  flat_map
    (fun p => [Stdout (fst p ++ snd p)%string; SleepMs 50])
    (combine cs text).

Definition animation (cs text : list string) : list console_event :=
  frames cs text ++ [Stdout (esc ++ "[0m" ++ newline)%string].

(** What a whole run of the script does, animating [quote]. *)
Definition script (os_name quote : string) (cs : list string)
  : list console_event :=
  [ System (if String.eqb os_name "nt" then "cls" else "clear");
    Stdout
      (newline ++ sparkles ++ " Motivational Quote Generator "
         ++ sparkles ++ newline ++ newline)%string;
    SleepMs 1000 ] ++
  animation cs (chars_of quote).

End Testing.

(** * Properties *)

(** ** Every run of [run()] follows one of the eight paths *)

Ltac flatten_trace :=
  unfold step_trace, log_line;
  repeat (progress cbn [app] || rewrite <- app_assoc || rewrite app_nil_r).

Lemma RunOutcome_trace {env : Env}
    (gen load : UseCaseAgent env -> Prog env io_event bool)
    (self : UseCaseAgent env) (w w' : World env) (r : result Summary)
    (t t' : list event) :
  RunOutcome gen load self w r w' t -> t = t' ->
  RunOutcome gen load self w r w' t'.
Proof. intros H <-. exact H. Qed.

Tactic Notation "follow" uconstr(path) :=
  do 3 eexists; split;
  [ reflexivity
  | eapply RunOutcome_trace;
    [ eapply path; eassumption | flatten_trace; reflexivity ] ].

(** Every run ends along one of the eight paths that return a summary or
    one of the four on which an exception escapes. *)
Lemma run_outcome {env : Env}
    (gen load : UseCaseAgent env -> Prog env io_event bool)
    (self : UseCaseAgent env) (w : World env) :
  exists r w' t,
    run gen load self w = (r, w', t) /\
    RunOutcome gen load self w r w' t.
Proof.
  unfold run.
  cbv [try_except bind invoke setitem2 getitem2 getitem ret raise emit
       run_logger initial_summary].
  destruct (check_neptune_permissions self w) as [[[bn|e] w1] t1] eqn:HN; cbn.
  2:{ destruct (is_Exception e) eqn:He; cbn;
        [follow path_neptune_raised | follow escape_neptune]. }
  destruct (check_s3_permissions self w1) as [[[[|]|e] w2] t2] eqn:HS; cbn.
  3:{ destruct (is_Exception e) eqn:He; cbn;
        [follow path_s3_raised | follow escape_s3]. }
  2: follow path_s3_failed.
  destruct (gen self w2) as [[[[|]|e] w3] t3] eqn:HG; cbn.
  3:{ destruct (is_Exception e) eqn:He; cbn;
        [follow path_generate_raised | follow escape_generate]. }
  2: follow path_generate_failed.
  destruct bn; cbn.
  2: follow path_gate_closed.
  destruct (load self w3) as [[[[|]|e] w4] t4] eqn:HL; cbn.
  - follow path_load_returned.
  - follow path_load_returned.
  - destruct (is_Exception e) eqn:He; cbn;
      [follow path_load_raised | follow escape_load].
Qed.

(** A run that returned followed one of the eight paths. *)
Lemma run_path_of {env : Env}
    (gen load : UseCaseAgent env -> Prog env io_event bool)
    (self : UseCaseAgent env) (w w' : World env) (summary : Summary)
    (t : list event) :
  run gen load self w = (Ok summary, w', t) ->
  RunPath gen load self w summary w' t.
Proof.
  intros Hrun.
  destruct (run_outcome gen load self w) as (r0 & w0 & t0 & Hrun0 & Hp).
  rewrite Hrun in Hrun0. inversion Hrun0; subst. exact Hp.
Qed.

(** ** Reading a trace *)

Lemma In_Call_calls (s : step) (t : list event) :
  In (Call s) t <-> In s (calls t).
Proof.
  unfold calls. rewrite in_flat_map. split.
  - intros H. exists (Call s). split; [exact H | left; reflexivity].
  - intros (e & He & Hs). destruct e; simpl in Hs; try contradiction.
    destruct Hs as [-> | []]. exact He.
Qed.

Lemma In_Return_returns (s : step) (r : result bool) (t : list event) :
  In (Return s r) t <-> In (s, r) (returns t).
Proof.
  unfold returns. rewrite in_flat_map. split.
  - intros H. exists (Return s r). split; [exact H | left; reflexivity].
  - intros (e & He & Hs). destruct e; simpl in Hs; try contradiction.
    destruct Hs as [Heq | []]. inversion Heq; subst. exact He.
Qed.

Lemma calls_app (t t' : list event) : calls (t ++ t') = calls t ++ calls t'.
Proof. apply flat_map_app. Qed.

Lemma returns_app (t t' : list event) :
  returns (t ++ t') = returns t ++ returns t'.
Proof. apply flat_map_app. Qed.

Lemma calls_Io (t : list io_event) : calls (map Io t) = [].
Proof. induction t as [|e t IH]; simpl; [reflexivity | exact IH]. Qed.

Lemma returns_Io (t : list io_event) : returns (map Io t) = [].
Proof. induction t as [|e t IH]; simpl; [reflexivity | exact IH]. Qed.

Lemma calls_step_trace (s : step) (t : list io_event) (r : result bool) :
  calls (step_trace s t r) = [s].
Proof.
  unfold step_trace. change (Call s :: ?l) with ([Call s] ++ l).
  rewrite !calls_app, calls_Io. reflexivity.
Qed.

Lemma returns_step_trace (s : step) (t : list io_event) (r : result bool) :
  returns (step_trace s t r) = [(s, r)].
Proof.
  unfold step_trace. change (Call s :: ?l) with ([Call s] ++ l).
  rewrite !returns_app, returns_Io. reflexivity.
Qed.

Ltac read_trace :=
  repeat rewrite calls_app; repeat rewrite returns_app;
  repeat rewrite calls_step_trace; repeat rewrite returns_step_trace;
  cbn [calls returns flat_map log_line app].

(** The steps entered along a path and their outcomes. *)
Lemma RunPath_calls_returns {env : Env}
    (gen load : UseCaseAgent env -> Prog env io_event bool)
    (self : UseCaseAgent env) (w w' : World env) (summary : Summary)
    (t : list event) :
  RunPath gen load self w summary w' t ->
  exists n, n <= 4 /\
    calls t =
      firstn n [check_neptune_permissions_step; check_s3_permissions_step;
                generate_csvs_step; batch_load_step] /\
    map fst (returns t) = calls t.
Proof.
  intros H. destruct H; read_trace.
  - exists 1. repeat split; lia.
  - exists 2. repeat split; lia.
  - exists 2. repeat split; lia.
  - exists 3. repeat split; lia.
  - exists 3. repeat split; lia.
  - exists 3. repeat split; lia.
  - exists 4. repeat split; lia.
  - destruct bl; exists 4; repeat split; lia.
Qed.

Ltac on_path Hp :=
  destruct Hp;
  repeat match goal with
    | H : In (Call _) _ |- _ => rewrite In_Call_calls in H
    | H : In (Return _ _) _ |- _ => rewrite In_Return_returns in H
    | H : ~ In (Call _) _ |- _ => rewrite In_Call_calls in H
    end;
  repeat rewrite In_Call_calls; repeat rewrite In_Return_returns;
  repeat match goal with
    | H : context [calls _] |- _ => revert H
    | H : context [returns _] |- _ => revert H
    end;
  read_trace; intros.

Ltac pick_return H :=
  simpl in H;
  repeat match type of H with
    | _ \/ _ => destruct H as [H | H]
    | False => contradiction
    end;
  try (inversion H; subst; clear H).

(** ** Claims about [run()] *)

(** C3, as the code has it.  Whatever the collaborators do, [run()]
    ends.  An instance of [Exception] raised in a step never comes out of
    [run()]: the run returns a summary with the text of the exception
    under the [error] key of that step.  An exception raised in a step that
    is not an instance of [Exception] ([KeyboardInterrupt], [SystemExit])
    does come out of [run()], and this is the only way for a run not to
    return a summary.  In a returned summary, a step that returned false
    has [ok] recorded as false. *)
Theorem run_returns_unless_non_exception {env : Env}
    (gen load : UseCaseAgent env -> Prog env io_event bool)
    (self : UseCaseAgent env) (w : World env) :
  exists r w' t,
    run gen load self w = (r, w', t) /\
    match r with
    | Ok summary =>
        (forall s, In (Return s (Ok false)) t ->
           recorded summary s "ok" = Some (VBool false)) /\
        (forall s e, In (Return s (Raise e)) t ->
           is_Exception e = true /\
           recorded summary s "error" = Some (VStr (exn_str e)))
    | Raise e =>
        is_Exception e = false /\
        exists s, In (Return s (Raise e)) t
    end.
Proof.
  destruct (run_outcome gen load self w) as (r & w' & t & Hrun & Hp).
  exists r, w', t. split; [exact Hrun|]. clear Hrun.
  destruct r as [summary|e]; cbn [RunOutcome] in Hp.
  - split.
    + intros s Hs. on_path Hp; pick_return Hs; reflexivity.
    + intros s e0 Hs.
      on_path Hp; pick_return Hs; (split; [assumption | reflexivity]).
  - destruct Hp; (split; [assumption|]).
    + exists check_neptune_permissions_step.
      rewrite In_Return_returns. read_trace. simpl. tauto.
    + exists check_s3_permissions_step.
      rewrite In_Return_returns. read_trace. simpl. tauto.
    + exists generate_csvs_step.
      rewrite In_Return_returns. read_trace. simpl. tauto.
    + exists batch_load_step.
      rewrite In_Return_returns. read_trace. simpl. tauto.
Qed.

(** The S3 simulation raises a connection error: the run still returns,
    with the error text in the S3 record. *)
Lemma run_returns_unless_non_exception_witness :
  let self := example_agent (Ok tt) (Some example_graph_arn) in
  exists summary w' t,
    UseCaseAgent_run self (unreachable_s3_world self) = (Ok summary, w', t) /\
    recorded summary check_s3_permissions_step "error" =
      Some (VStr "Could not connect to the endpoint URL").
Proof.
  intros self.
  destruct (run_returns_unless_non_exception generate_csvs batch_load self
              (unreachable_s3_world self))
    as (r & w' & t & Hrun & Hr).
  destruct r as [summary|e];
    [|vm_compute in Hrun; discriminate Hrun].
  destruct Hr as (_ & Herr).
  exists summary, w', t. split; [exact Hrun|].
  apply (Herr check_s3_permissions_step
           (Exn OtherException "Could not connect to the endpoint URL")).
  vm_compute in Hrun. inversion Hrun. simpl. tauto.
Defined.

(** C3, as the specification words it, fails: a [KeyboardInterrupt] raised
    inside the S3 simulation goes through [check_s3_permissions] and
    through the [except Exception] of [run()]. *)
Lemma keyboard_interrupt_escapes_run :
  let self := example_agent (Ok tt) (Some example_graph_arn) in
  ~ claimed_run_never_raises generate_csvs batch_load self
      (interrupted_s3_world self).
Proof.
  intros self (summary & w' & t & Hrun).
  vm_compute in Hrun. discriminate Hrun.
Qed.

Ltac not_called :=
  let H := fresh in
  intros H; simpl in H;
  repeat match type of H with
    | _ \/ _ => destruct H as [H | H]
    | False => contradiction
    | _ = _ => discriminate H
    end.



(** C9.  Every summary [run()] returns has the five step keys in their
    fixed order, each with a boolean [ok]; the [identify_principal] record
    is the initial one; an [error] key sits only in the record of a step
    whose call raised (and holds the text of that exception); and a step
    that was not called keeps the default record.  (A run that returns no
    summary has let an exception escape that is not an instance of
    [Exception].) *)
Theorem summary_shape {env : Env}
    (gen load : UseCaseAgent env -> Prog env io_event bool)
    (self : UseCaseAgent env) (w : World env) :
  exists r w' t,
    run gen load self w = (r, w', t) /\
    match r with
    | Ok summary =>
        keys summary =
          [ "identify_principal"; "check_neptune_permissions";
            "check_s3_permissions"; "generate_csvs"; "batch_load" ] /\
        (forall k rec, In (k, rec) summary ->
           exists b, dict_get rec "ok" = Some (VBool b)) /\
        dict_get summary "identify_principal" =
          Some [("ok", VBool true);
                ("principal_arn", VStr (principal_arn self))] /\
        (forall s v, recorded summary s "error" = Some v ->
           exists e, In (Return s (Raise e)) t /\ v = VStr (exn_str e)) /\
        (forall s, ~ In (Call s) t ->
           dict_get summary (step_key s) = Some default_record)
    | Raise e => is_Exception e = false
    end.
Proof.
  destruct (run_outcome gen load self w) as (r & w' & t & Hrun & Hp).
  exists r, w', t. split; [exact Hrun|]. clear Hrun.
  destruct r as [summary|e]; cbn [RunOutcome] in Hp;
    [|destruct Hp; assumption].
  split; [destruct Hp; reflexivity|].
  split.
  { intros k rec Hin. destruct Hp; simpl in Hin;
      repeat (destruct Hin as [Hin | Hin]; [inversion Hin; subst; clear Hin|]);
      try contradiction; eexists; reflexivity. }
  split; [destruct Hp; reflexivity|].
  split.
  - intros s v Hv.
    destruct Hp; destruct s; try discriminate Hv;
      inversion Hv; subst; eexists; (split; [|reflexivity]);
      rewrite In_Return_returns; read_trace; simpl; tauto.
  - intros s Hs.
    destruct Hp; destruct s; try reflexivity; exfalso; apply Hs;
      rewrite In_Call_calls; read_trace; simpl; tauto.
Qed.

Lemma summary_shape_witness :
  let self := example_agent (Ok tt) (Some example_graph_arn) in
  exists summary w' t,
    UseCaseAgent_run self (unreachable_s3_world self) = (Ok summary, w', t) /\
    keys summary =
      [ "identify_principal"; "check_neptune_permissions";
        "check_s3_permissions"; "generate_csvs"; "batch_load" ] /\
    dict_get summary "generate_csvs" = Some default_record /\
    dict_get summary "batch_load" = Some default_record.
Proof.
  intros self.
  destruct (summary_shape generate_csvs batch_load self
              (unreachable_s3_world self))
    as (r & w' & t & Hrun & Hr).
  destruct r as [summary|e];
    [|vm_compute in Hrun; discriminate Hrun].
  destruct Hr as (Hkeys & _ & _ & _ & Hskipped).
  exists summary, w', t. split; [exact Hrun|]. split; [exact Hkeys|].
  split.
  - apply (Hskipped generate_csvs_step).
    vm_compute in Hrun. inversion Hrun. not_called.
  - apply (Hskipped batch_load_step).
    vm_compute in Hrun. inversion Hrun. not_called.
Defined.




(** ** Claims about the graph-permission check *)

(** What [simulate_permissions] does, by the answer of the environment. *)
Lemma simulate_permissions_unfold {env : Env} (self : UseCaseAgent env)
    (actions resources : list string) (w : World env) :
  simulate_permissions self actions resources w =
  let start :=
    [ Log INFO "Simulating permissions for %s" [AStr (principal_arn self)];
      SimulatePrincipalPolicy (principal_arn self) actions resources ] in
  match simulate_principal_policy env (iam self) (principal_arn self)
          actions resources w with
  | (Ok resp, w1) => (Ok resp, w1, start)
  | (Raise e, w1) =>
      (Raise e, w1,
       if is_ClientError e
       then start ++ [Log ERROR "SimulatePrincipalPolicy failed: %s" [AExn e]]
       else start)
  end.
Proof.
  unfold simulate_permissions, logger, iam_simulate_principal_policy.
  cbv [bind try_except emit raise ret].
  destruct (simulate_principal_policy env (iam self) (principal_arn self)
              actions resources w) as [[resp|e] w1]; [reflexivity|].
  destruct (is_ClientError e); reflexivity.
Qed.

(** The one simulation call of [check_neptune_permissions]. *)
Lemma check_neptune_permissions_call {env : Env} (self : UseCaseAgent env)
    (w : World env) :
  simulate_calls (snd (check_neptune_permissions self w)) =
  [(principal_arn self, neptune_actions self, graph_scope self)].
Proof.
  unfold check_neptune_permissions, graph_scope, configured_graph_arn, logger.
  cbv [bind emit ret].
  destruct (graph_arn self) as [arn|]; [destruct (str_truthy arn)|]; cbn [negb];
    rewrite simulate_permissions_unfold; cbv zeta;
    match goal with
    | |- context [simulate_principal_policy ?e ?c ?p ?a ?r ?w] =>
        destruct (simulate_principal_policy e c p a r w) as [[resp|e0] w1]
    end;
    try destruct (neptune_denied (get_EvaluationResults resp));
    try destruct (is_ClientError e0); reflexivity.
Qed.

(** C6.  [check_neptune_permissions] makes exactly one simulation call.  Its
    resource list is the wildcard list when no graph ARN is configured and
    the one-element list of the configured ARN otherwise; in every case it
    is one of the two and has one element, never both. *)
Theorem graph_scope_is_wildcard_or_arn {env : Env} (self : UseCaseAgent env)
    (w : World env) :
  exists scope,
    simulate_calls (snd (check_neptune_permissions self w)) =
      [(principal_arn self, neptune_actions self, scope)] /\
    (graph_arn self = None -> scope = ["*"]) /\
    (forall arn, graph_arn self = Some arn -> arn <> EmptyString ->
       scope = [arn]) /\
    (scope = ["*"] \/ exists arn, graph_arn self = Some arn /\ scope = [arn]) /\
    length scope = 1.
Proof.
  exists (graph_scope self). split; [apply check_neptune_permissions_call|].
  unfold graph_scope, configured_graph_arn.
  destruct (graph_arn self) as [[|c arn]|]; cbn [str_truthy].
  - repeat split; try (left; reflexivity); intros; congruence.
  - repeat split; try (right; eexists; split; reflexivity); intros; congruence.
  - repeat split; try (left; reflexivity); intros; congruence.
Qed.

Lemma graph_scope_is_wildcard_or_arn_witness :
  let w : World (scripted (Ok tt)) := [] in
  simulate_calls
    (snd (check_neptune_permissions
            (example_agent (Ok tt) (Some example_graph_arn)) w)) =
    [ (principal_arn (example_agent (Ok tt) (Some example_graph_arn)),
       neptune_actions (example_agent (Ok tt) (Some example_graph_arn)),
       [example_graph_arn]) ] /\
  simulate_calls
    (snd (check_neptune_permissions (example_agent (Ok tt) None) w)) =
    [ (principal_arn (example_agent (Ok tt) None),
       neptune_actions (example_agent (Ok tt) None),
       ["*"]) ].
Proof.
  intros w. split.
  - destruct (graph_scope_is_wildcard_or_arn
                (example_agent (Ok tt) (Some example_graph_arn)) w)
      as (scope & Hcall & _ & Harn & _).
    rewrite Hcall, (Harn example_graph_arn eq_refl); [reflexivity|discriminate].
  - destruct (graph_scope_is_wildcard_or_arn (example_agent (Ok tt) None) w)
      as (scope & Hcall & Hnone & _).
    rewrite Hcall, (Hnone eq_refl). reflexivity.
Defined.

(** C10.  A graph ARN that is the empty string counts as not configured:
    the simulation is called on the wildcard, not on the empty string. *)
Theorem empty_graph_arn_is_wildcard {env : Env} (self : UseCaseAgent env)
    (w : World env) :
  graph_arn self = Some EmptyString ->
  simulate_calls (snd (check_neptune_permissions self w)) =
    [(principal_arn self, neptune_actions self, ["*"])].
Proof.
  intros Harn. rewrite check_neptune_permissions_call.
  unfold graph_scope, configured_graph_arn. rewrite Harn. reflexivity.
Qed.

Lemma empty_graph_arn_is_wildcard_witness :
  let self := example_agent (Ok tt) (Some EmptyString) in
  let w : World (scripted (Ok tt)) := [Ok (all_allowed (neptune_actions self))] in
  graph_arn self = Some EmptyString /\
  simulate_calls (snd (check_neptune_permissions self w)) =
    [(principal_arn self, neptune_actions self, ["*"])].
Proof.
  intros self w. split; [reflexivity|].
  apply (empty_graph_arn_is_wildcard self w). reflexivity.
Defined.

Lemma not_allowed_iff (decision : option string) :
  not_allowed decision = true <-> decision <> Some "allowed".
Proof.
  destruct decision as [d|]; simpl.
  - rewrite negb_true_iff, String.eqb_neq. split; congruence.
  - split; [discriminate | reflexivity].
Qed.

(** The loop collects one tuple per denied result, in the order of the
    response. *)
Lemma neptune_denied_filter (results : list EvaluationResult) :
  neptune_denied results = map denied_entry (filter is_denied results).
Proof.
  unfold neptune_denied.
  enough (Hacc : forall acc,
    fold_left
      (fun denied r =>
         let action := EvalActionName r in
         let decision := EvalDecision r in
         if not_allowed decision
         then denied ++
              [(action, decision,
                match MatchedStatements r with Some ms => ms | None => [] end)]
         else denied) results acc
    = acc ++ map denied_entry (filter is_denied results))
    by apply (Hacc []).
  induction results as [|r results IH]; intros acc; simpl.
  - symmetry. apply app_nil_r.
  - rewrite IH. unfold is_denied at 2.
    destruct (not_allowed (EvalDecision r)); [|reflexivity].
    rewrite <- app_assoc. reflexivity.
Qed.

Lemma s3_denied_filter (results : list EvaluationResult) :
  s3_denied results =
  map (fun r => (EvalActionName r, EvalDecision r)) (filter is_denied results).
Proof.
  unfold s3_denied.
  enough (Hacc : forall acc,
    fold_left
      (fun denied r =>
         if not_allowed (EvalDecision r)
         then denied ++ [(EvalActionName r, EvalDecision r)]
         else denied) results acc
    = acc ++ map (fun r => (EvalActionName r, EvalDecision r))
               (filter is_denied results))
    by apply (Hacc []).
  induction results as [|r results IH]; intros acc; simpl.
  - symmetry. apply app_nil_r.
  - rewrite IH. unfold is_denied at 2.
    destruct (not_allowed (EvalDecision r)); [|reflexivity].
    rewrite <- app_assoc. reflexivity.
Qed.

Lemma filter_nil_iff {A : Type} (p : A -> bool) (l : list A) :
  filter p l = [] <-> forall x, In x l -> p x = false.
Proof.
  induction l as [|a l IH]; simpl.
  - split; [intros _ x [] | reflexivity].
  - destruct (p a) eqn:Hpa.
    + split; [discriminate|]. intros H. specialize (H a (or_introl eq_refl)).
      congruence.
    + rewrite IH. split.
      * intros H x [<- | Hx]; [exact Hpa | apply H, Hx].
      * intros H x Hx. apply H. right. exact Hx.
Qed.

(** Among results with pairwise distinct keys, a kept result is kept once. *)
Lemma count_occ_filter_once {A B : Type}
    (dec : forall x y : B, {x = y} + {x <> y})
    (key : A -> B) (p : A -> bool) (l : list A) :
  NoDup (map key l) ->
  forall x, In x l -> p x = true ->
  count_occ dec (map key (filter p l)) (key x) = 1.
Proof.
  induction l as [|a l IH]; simpl; intros Hnd x Hin Hp; [contradiction|].
  inversion Hnd as [|k ks Hnotin Hnd']; subst.
  assert (Hsub : forall y, In y (map key (filter p l)) -> In y (map key l)).
  { intros y Hy. apply in_map_iff in Hy. destruct Hy as (z & <- & Hz).
    apply filter_In in Hz. apply in_map. apply Hz. }
  destruct Hin as [-> | Hin].
  - rewrite Hp. simpl. destruct (dec (key x) (key x)) as [_|Hne]; [|congruence].
    f_equal. apply count_occ_not_In. intros Hy. apply Hnotin, Hsub, Hy.
  - assert (Hne : key a <> key x).
    { intros Heq. apply Hnotin. rewrite Heq. apply in_map. exact Hin. }
    destruct (p a); simpl.
    + destruct (dec (key a) (key x)) as [Heq|_]; [contradiction|].
      apply IH; assumption.
    + apply IH; assumption.
Qed.

(** [check_neptune_permissions] on a simulation that answered. *)
Lemma check_neptune_permissions_answered {env : Env} (self : UseCaseAgent env)
    (w w1 : World env) (resp : SimulationResponse) :
  simulate_principal_policy env (iam self) (principal_arn self)
    (neptune_actions self) (graph_scope self) w = (Ok resp, w1) ->
  exists t0,
    check_neptune_permissions self w =
    match neptune_denied (get_EvaluationResults resp) with
    | [] =>
        (Ok true, w1,
         t0 ++
         [Log INFO
            "Neptune permission simulation OK (all required actions allowed)."
            []])
    | denied =>
        (Ok false, w1,
         t0 ++
         [Log ERROR "Neptune permission simulation shows DENIED actions: %s"
            [ANeptuneDenied denied]])
    end.
Proof.
  intros Hsim.
  exists
    ((match configured_graph_arn self with
      | Some _ => []
      | None =>
          [Log WARNING
             "No graph ARN provided; skipping graph-scoped simulation. You may be using a cluster-based flow."
             []]
      end) ++
     [ Log INFO "Simulating permissions for %s" [AStr (principal_arn self)];
       SimulatePrincipalPolicy (principal_arn self) (neptune_actions self)
         (graph_scope self) ]).
  revert Hsim.
  unfold check_neptune_permissions, graph_scope, configured_graph_arn, logger.
  cbv [bind emit ret].
  destruct (graph_arn self) as [arn|]; [destruct (str_truthy arn)|]; cbn [negb];
    intros Hsim; rewrite simulate_permissions_unfold; cbv zeta; rewrite Hsim;
    destruct (neptune_denied (get_EvaluationResults resp)); reflexivity.
Qed.

(** A denied action is in the list once per denied result naming it. *)
Lemma count_occ_filter {A B : Type}
    (dec : forall x y : B, {x = y} + {x <> y})
    (key : A -> B) (p : A -> bool) (l : list A) (b : B) :
  count_occ dec (map key (filter p l)) b =
  length (filter (fun x => p x && (if dec (key x) b then true else false)) l).
Proof.
  induction l as [|x l IH]; [reflexivity|].
  cbn [filter]. destruct (p x); cbn [andb map count_occ];
    [destruct (dec (key x) b); cbn [length]; rewrite IH; reflexivity
    | exact IH].
Qed.

(** C5, as the code has it.  On every simulation response,
    [check_neptune_permissions] returns true when every decision is
    "allowed" and false as soon as one is not.  The denial list it collects
    (and logs) has one tuple per denied result, in the order of the
    response, each with the action, the decision and the matched
    statements.  So a denied action is in the list as many times as there
    are denied results naming it: exactly once when the response has one
    result per action. *)
Theorem check_neptune_permissions_verdict {env : Env}
    (self : UseCaseAgent env) (w w1 : World env) (resp : SimulationResponse) :
  simulate_principal_policy env (iam self) (principal_arn self)
    (neptune_actions self) (graph_scope self) w = (Ok resp, w1) ->
  let results := get_EvaluationResults resp in
  let denied := neptune_denied results in
  exists b t,
    check_neptune_permissions self w = (Ok b, w1, t) /\
    ((forall r, In r results -> EvalDecision r = Some "allowed") -> b = true) /\
    ((exists r, In r results /\ EvalDecision r <> Some "allowed") ->
       b = false /\
       In (Log ERROR "Neptune permission simulation shows DENIED actions: %s"
             [ANeptuneDenied denied]) t) /\
    denied = map denied_entry (filter is_denied results) /\
    (forall r, In r results -> EvalDecision r <> Some "allowed" ->
       In (denied_entry r) denied) /\
    (forall a,
       count_occ action_eq_dec (map denied_action denied) a =
       length (filter (denies a) results)) /\
    (NoDup (map EvalActionName results) ->
     forall r, In r results -> EvalDecision r <> Some "allowed" ->
       count_occ action_eq_dec (map denied_action denied) (EvalActionName r) = 1).
Proof.
  intros Hsim results denied.
  destruct (check_neptune_permissions_answered self w w1 resp Hsim)
    as (t0 & Hrun).
  fold results in Hrun. fold denied in Hrun.
  assert (Hfilter : denied = map denied_entry (filter is_denied results))
    by apply neptune_denied_filter.
  assert (Hin : forall r, In r results -> EvalDecision r <> Some "allowed" ->
                  In (denied_entry r) denied).
  { intros r Hr Hd. rewrite Hfilter. apply in_map. apply filter_In.
    split; [exact Hr | apply not_allowed_iff, Hd]. }
  assert (Hcount : forall a,
            count_occ action_eq_dec (map denied_action denied) a =
            length (filter (denies a) results)).
  { intros a. rewrite Hfilter. unfold denied_action. rewrite map_map.
    cbn [denied_entry fst].
    apply (count_occ_filter action_eq_dec EvalActionName is_denied). }
  assert (Honce : NoDup (map EvalActionName results) ->
            forall r, In r results -> EvalDecision r <> Some "allowed" ->
            count_occ action_eq_dec (map denied_action denied)
              (EvalActionName r) = 1).
  { intros Hnd r Hr Hd. rewrite Hfilter.
    unfold denied_action. rewrite map_map. cbn [denied_entry fst].
    apply (count_occ_filter_once action_eq_dec EvalActionName is_denied);
      [exact Hnd | exact Hr | apply not_allowed_iff, Hd]. }
  destruct denied as [|d ds] eqn:Hdenied.
  - eexists. eexists. split; [exact Hrun|].
    split; [reflexivity|]. split.
    + intros (r & Hr & Hd). destruct (Hin r Hr Hd).
    + repeat split; assumption.
  - eexists. eexists. split; [exact Hrun|]. split.
    + intros Hall.
      assert (Hnone : filter is_denied results = []).
      { apply filter_nil_iff. intros r Hr. unfold is_denied.
        rewrite (Hall r Hr). reflexivity. }
      rewrite Hnone in Hfilter. discriminate Hfilter.
    + split.
      * intros _. split; [reflexivity|]. apply in_or_app. right. left.
        reflexivity.
      * repeat split; assumption.
Qed.

Lemma check_neptune_permissions_verdict_witness :
  let self := example_agent (Ok tt) (Some example_graph_arn) in
  let w : World (scripted (Ok tt)) := [Ok mixed_response] in
  simulate_principal_policy (scripted (Ok tt)) (iam self) (principal_arn self)
    (neptune_actions self) (graph_scope self) w = (Ok mixed_response, []) /\
  exists b t,
    check_neptune_permissions self w = (Ok b, [], t) /\
    b = false /\
    count_occ action_eq_dec
      (map denied_action
         (neptune_denied (get_EvaluationResults mixed_response)))
      (Some "neptune-graph:WriteDataViaQuery") = 1.
Proof.
  intros self w. split; [reflexivity|].
  destruct (check_neptune_permissions_verdict self w [] mixed_response eq_refl)
    as (b & t & Hrun & _ & Hdenied & _ & _ & _ & Honce).
  exists b, t. split; [exact Hrun|]. split.
  - apply Hdenied.
    exists (evaluation "neptune-graph:WriteDataViaQuery" "implicitDeny").
    split; [simpl; tauto | discriminate].
  - apply (Honce
             ltac:(repeat constructor; simpl; intuition discriminate)
             (evaluation "neptune-graph:WriteDataViaQuery" "implicitDeny"));
      [simpl; tauto | discriminate].
Defined.

(** C5, as the specification words it, fails: a response that denies the
    same action in two results puts that action in the denial list twice. *)
Lemma action_denied_twice_is_listed_twice :
  let self := example_agent (Ok tt) (Some example_graph_arn) in
  let w : World (scripted (Ok tt)) := [Ok twice_denied_response] in
  ~ claimed_denied_action_once self w.
Proof.
  intros self w Hclaim.
  specialize (Hclaim twice_denied_response [] eq_refl
                (evaluation "neptune-graph:WriteDataViaQuery" "implicitDeny")).
  assert (Hin : In (evaluation "neptune-graph:WriteDataViaQuery" "implicitDeny")
                  (get_EvaluationResults twice_denied_response))
    by (simpl; tauto).
  specialize (Hclaim Hin ltac:(discriminate)).
  vm_compute in Hclaim. discriminate Hclaim.
Qed.

(** ** Claims about the S3 check *)

(** [check_s3_permissions], by the answers of the environment. *)
Lemma check_s3_permissions_unfold {env : Env} (self : UseCaseAgent env)
    (w : World env) :
  check_s3_permissions self w =
  let start :=
    [ Log INFO "Simulating permissions for %s" [AStr (principal_arn self)];
      SimulatePrincipalPolicy (principal_arn self) (s3_actions self)
        [bucket_arn self; object_arn self] ] in
  let attempt :=
    [ Log INFO "Attempting S3 ListObjectsV2 on bucket to validate access..." [];
      ListObjectsV2 (list_kwargs self) ] in
  match simulate_principal_policy env (iam self) (principal_arn self)
          (s3_actions self) [bucket_arn self; object_arn self] w with
  | (Raise e, w1) =>
      if is_ClientError e
      then (Ok false, w1,
            start ++ [Log ERROR "SimulatePrincipalPolicy failed: %s" [AExn e]])
      else (Raise e, w1, start)
  | (Ok resp, w1) =>
      match s3_denied (get_EvaluationResults resp) with
      | d :: ds =>
          (Ok false, w1,
           start ++
           [Log ERROR "S3 permission simulation shows DENIED actions: %s"
              [AS3Denied (d :: ds)]])
      | [] =>
          match list_objects_v2 env (s3 self) (list_kwargs self) w1 with
          | (Ok _, w2) =>
              (Ok true, w2, start ++ attempt ++ [Log INFO "S3 access check OK." []])
          | (Raise e, w2) =>
              if is_ClientError e
              then (Ok false, w2,
                    start ++ attempt ++ [Log ERROR "S3 call failed: %s" [AExn e]])
              else (Raise e, w2, start ++ attempt)
          end
      end
  end.
Proof.
  unfold check_s3_permissions.
  cbv [bind try_except ret]. rewrite simulate_permissions_unfold. cbv zeta.
  destruct (simulate_principal_policy env (iam self) (principal_arn self)
              (s3_actions self) [bucket_arn self; object_arn self] w)
    as [[resp|e] w1].
  - destruct (s3_denied (get_EvaluationResults resp)) as [|d ds].
    + unfold logger, s3_list_objects_v2. cbv [bind emit ret].
      destruct (list_objects_v2 env (s3 self) (list_kwargs self) w1)
        as [[[]|e] w2]; [reflexivity|].
      destruct (is_ClientError e); reflexivity.
    + reflexivity.
  - destruct (is_ClientError e); cbn [app]; reflexivity.
Qed.




(** C8, as the code has it.  [check_s3_permissions] returns true only when
    the simulation answered, every decision is "allowed" and the listing
    probe succeeded, and it does return true then.  With a denied decision
    it returns false without probing.  When the probe raises a
    [ClientError] it returns false; a probe exception of any other class
    goes on to the caller. *)
Theorem check_s3_permissions_verdict {env : Env} (self : UseCaseAgent env)
    (w : World env) :
  let simulation :=
    simulate_principal_policy env (iam self) (principal_arn self)
      (s3_actions self) [bucket_arn self; object_arn self] w in
  let allowed resp :=
    forall r, In r (get_EvaluationResults resp) ->
      EvalDecision r = Some "allowed" in
  (forall w' t, check_s3_permissions self w = (Ok true, w', t) ->
     exists resp w1,
       simulation = (Ok resp, w1) /\ allowed resp /\
       list_objects_v2 env (s3 self) (list_kwargs self) w1 = (Ok tt, w') /\
       probes t = [list_kwargs self]) /\
  (forall resp w1 w2,
     simulation = (Ok resp, w1) -> allowed resp ->
     list_objects_v2 env (s3 self) (list_kwargs self) w1 = (Ok tt, w2) ->
     exists t, check_s3_permissions self w = (Ok true, w2, t)) /\
  (forall resp w1,
     simulation = (Ok resp, w1) -> ~ allowed resp ->
     exists t, check_s3_permissions self w = (Ok false, w1, t) /\
               probes t = []) /\
  (forall resp w1 e w2,
     simulation = (Ok resp, w1) -> allowed resp ->
     list_objects_v2 env (s3 self) (list_kwargs self) w1 = (Raise e, w2) ->
     exists t,
       check_s3_permissions self w =
         (if is_ClientError e then Ok false else Raise e, w2, t)).
Proof.
  intros simulation allowed.
  assert (Hallowed : forall resp,
            allowed resp <-> s3_denied (get_EvaluationResults resp) = []).
  { intros resp. rewrite s3_denied_filter. unfold allowed. split.
    - intros Hall.
      replace (filter is_denied (get_EvaluationResults resp)) with
        (@nil EvaluationResult); [reflexivity|].
      symmetry. apply filter_nil_iff. intros r Hr. unfold is_denied.
      rewrite (Hall r Hr). reflexivity.
    - intros Hnil r Hr. apply map_eq_nil in Hnil.
      destruct (not_allowed (EvalDecision r)) eqn:Hd.
      + assert (Hin : In r (filter is_denied (get_EvaluationResults resp)))
          by (apply filter_In; split; assumption).
        rewrite Hnil in Hin. destruct Hin.
      + destruct (EvalDecision r) as [d|]; [|discriminate Hd].
        simpl in Hd. apply negb_false_iff, String.eqb_eq in Hd.
        rewrite Hd. reflexivity. }
  rewrite check_s3_permissions_unfold. cbv zeta. fold simulation.
  repeat split.
  - intros w' t Hrun.
    destruct simulation as [[resp|e] w1].
    + destruct (s3_denied (get_EvaluationResults resp)) as [|d ds] eqn:Hden;
        [|discriminate Hrun].
      destruct (list_objects_v2 env (s3 self) (list_kwargs self) w1)
        as [[[]|e] w2] eqn:Hprobe.
      * inversion Hrun; subst. exists resp, w1.
        split; [reflexivity|]. split; [apply Hallowed, Hden|].
        split; [exact Hprobe | reflexivity].
      * destruct (is_ClientError e); discriminate Hrun.
    + destruct (is_ClientError e); discriminate Hrun.
  - intros resp w1 w2 -> Hall Hprobe. apply Hallowed in Hall.
    rewrite Hall, Hprobe. eexists. reflexivity.
  - intros resp w1 -> Hnot.
    destruct (s3_denied (get_EvaluationResults resp)) as [|d ds] eqn:Hden.
    + contradiction Hnot. apply Hallowed, Hden.
    + eexists. split; reflexivity.
  - intros resp w1 e w2 -> Hall Hprobe. apply Hallowed in Hall.
    rewrite Hall, Hprobe. destruct (is_ClientError e); eexists; reflexivity.
Qed.

(** The simulation allows both S3 actions, the bucket policy refuses the
    listing. *)
Lemma check_s3_permissions_verdict_witness :
  let probe : result unit := Raise (Exn ClientError "AccessDenied") in
  let self := example_agent probe (Some example_graph_arn) in
  let w : World (scripted probe) := [Ok (all_allowed (s3_actions self))] in
  (exists t, check_s3_permissions self w = (Ok false, [], t)) /\
  (forall w' t, check_s3_permissions self w <> (Ok true, w', t)).
Proof.
  intros probe self w.
  destruct (check_s3_permissions_verdict self w)
    as (Honly & _ & _ & Hprobe).
  split.
  - apply (Hprobe (all_allowed (s3_actions self)) []
             (Exn ClientError "AccessDenied") [] eq_refl);
      [|reflexivity].
    intros r Hr. simpl in Hr.
    destruct Hr as [<- | [<- | []]]; reflexivity.
  - intros w' t Hrun.
    destruct (Honly w' t Hrun) as (resp & w1 & Hsim & _ & Hlist & _).
    inversion Hsim; subst. discriminate Hlist.
Defined.

(** C8, as the specification words it, fails: a probe that raises anything
    but a [ClientError] makes [check_s3_permissions] raise instead of
    returning false. *)
Lemma timeout_escapes_check_s3_permissions :
  let probe : result unit := Raise (Exn OtherException "Read timeout") in
  let self := example_agent probe (Some example_graph_arn) in
  let w : World (scripted probe) := [Ok (all_allowed (s3_actions self))] in
  ~ claimed_probe_error_is_false self w.
Proof.
  intros probe self w Hclaim.
  destruct (Hclaim _ _ _ _ eq_refl eq_refl) as (w' & t & Hrun).
  vm_compute in Hrun. discriminate Hrun.
Qed.

(** ** Claims about the constructor *)

(** C2, as the code has it.  With a mode other than "graph" and "db" the
    constructor never returns an agent.  It asks for its three clients
    first; once they are there it raises the [ValueError], so the IAM, S3
    and STS handles have been created by then. *)
Theorem init_rejects_unknown_mode {env : Env}
    (principal_arn s3_bucket s3_prefix : string) (graph_arn : option string)
    (neptune_mode : string) (w : World env) :
  neptune_mode <> "graph" -> neptune_mode <> "db" ->
  (exists e w1 t,
     __init__ principal_arn s3_bucket s3_prefix graph_arn neptune_mode w
       = (Raise e, w1, t)) /\
  (forall c1 w1 c2 w2 c3 w3,
     boto3_client env "iam" w = (Ok c1, w1) ->
     boto3_client env "s3" w1 = (Ok c2, w2) ->
     boto3_client env "sts" w2 = (Ok c3, w3) ->
     exists t,
       __init__ principal_arn s3_bucket s3_prefix graph_arn neptune_mode w
         = (Raise (Exn ValueError "neptune_mode must be 'graph' or 'db'"),
            w3, t) /\
       handles_created t = ["iam"; "s3"; "sts"]).
Proof.
  intros Hgraph Hdb.
  apply String.eqb_neq in Hgraph. apply String.eqb_neq in Hdb.
  unfold __init__, client. cbv [bind ret raise]. rewrite Hgraph, Hdb.
  split.
  - destruct (boto3_client env "iam" w) as [[c1|e1] w1];
      [|do 3 eexists; reflexivity].
    destruct (boto3_client env "s3" w1) as [[c2|e2] w2];
      [|do 3 eexists; reflexivity].
    destruct (boto3_client env "sts" w2) as [[c3|e3] w3];
      do 3 eexists; reflexivity.
  - intros c1 w1 c2 w2 c3 w3 -> -> ->. eexists. split; reflexivity.
Qed.

Lemma init_rejects_unknown_mode_witness :
  let w : World (scripted (Ok tt)) := [] in
  exists t,
    __init__ "arn:aws:iam::123456789012:role/YourLambdaExecutionRole"
      "your-csv-bucket-name" "neptune/csvs" None "cluster" w
      = (Raise (Exn ValueError "neptune_mode must be 'graph' or 'db'"), w, t) /\
    handles_created t = ["iam"; "s3"; "sts"].
Proof.
  intros w.
  refine (proj2 (init_rejects_unknown_mode (env := scripted (Ok tt))
                   _ _ _ _ "cluster" w _ _) _ _ _ _ _ _ eq_refl eq_refl eq_refl);
    discriminate.
Defined.

(** C2, as the specification words it, fails: the three handles exist
    before the mode is looked at. *)
Lemma handles_created_before_mode_check :
  let w : World (scripted (Ok tt)) := [] in
  ~ claimed_no_handles
      "arn:aws:iam::123456789012:role/YourLambdaExecutionRole"
      "your-csv-bucket-name" "neptune/csvs" None "cluster" w.
Proof.
  intros w (e & w1 & t & Hinit & _ & Hnone).
  vm_compute in Hinit. inversion Hinit; subst. discriminate Hnone.
Qed.

(** * Further properties *)

(** ** [run()]: order of the steps and shape of the summary *)

Lemma marks_app (t t' : list event) : marks (t ++ t') = marks t ++ marks t'.
Proof. apply filter_app. Qed.

Lemma marks_Io (t : list io_event) : marks (map Io t) = [].
Proof. induction t as [|e t IH]; simpl; [reflexivity | exact IH]. Qed.

Lemma marks_step_trace (s : step) (t : list io_event) (r : result bool) :
  marks (step_trace s t r) = [Call s; Return s r].
Proof.
  unfold step_trace. change (Call s :: ?l) with ([Call s] ++ l).
  rewrite !marks_app, marks_Io. reflexivity.
Qed.

(** X1.  [run()] enters its steps in pipeline order, starting with the
    graph-permission check, each at most once, and every step it entered
    came back (with a value or an exception) before the next was entered:
    the call and return marks of a run are call, return, call, return, ...
    over a non-empty prefix of the pipeline.  This holds of a run that
    returns a summary and of one that lets an exception escape. *)
Theorem run_calls_steps_in_order {env : Env}
    (gen load : UseCaseAgent env -> Prog env io_event bool)
    (self : UseCaseAgent env) (w : World env) :
  exists r w' t,
    run gen load self w = (r, w', t) /\
    exists outcomes,
      1 <= length outcomes <= 4 /\
      marks t = in_turn pipeline outcomes.
Proof.
  destruct (run_outcome gen load self w) as (r & w' & t & Hrun & Hp).
  exists r, w', t. split; [exact Hrun|]. clear Hrun.
  destruct r as [summary|e]; cbn [RunOutcome] in Hp; destruct Hp;
    repeat rewrite marks_app; repeat rewrite marks_step_trace;
    cbn [marks filter log_line app];
    match goal with
    | |- exists _, _ /\ [Call _; Return _ ?r1] = _ => exists [r1]
    | |- exists _, _ /\ [Call _; Return _ ?r1; Call _; Return _ ?r2] = _ =>
        exists [r1; r2]
    | |- exists _, _ /\
           [Call _; Return _ ?r1; Call _; Return _ ?r2; Call _; Return _ ?r3]
           = _ => exists [r1; r2; r3]
    | |- exists _, _ /\
           [Call _; Return _ ?r1; Call _; Return _ ?r2; Call _; Return _ ?r3;
            Call _; Return _ ?r4] = _ => exists [r1; r2; r3; r4]
    end;
    (split; [simpl; lia | reflexivity]).
Qed.

(** X2.  The summary reports [batch_load] as ok exactly when each of the
    four steps returned true.  (A run that returns no summary has let an
    exception escape that is not an instance of [Exception].) *)
Theorem batch_load_ok_iff_all_steps_true {env : Env}
    (gen load : UseCaseAgent env -> Prog env io_event bool)
    (self : UseCaseAgent env) (w : World env) :
  exists r w' t,
    run gen load self w = (r, w', t) /\
    match r with
    | Ok summary =>
        recorded summary batch_load_step "ok" = Some (VBool true) <->
        forall s, In (Return s (Ok true)) t
    | Raise e => is_Exception e = false
    end.
Proof.
  destruct (run_outcome gen load self w) as (r & w' & t & Hrun & Hp).
  exists r, w', t. split; [exact Hrun|]. clear Hrun.
  destruct r as [summary|e]; cbn [RunOutcome] in Hp;
    [|destruct Hp; assumption].
  destruct Hp; (split; [intros Hok | intros Hall]);
    try discriminate Hok;
    try (specialize (Hall batch_load_step);
         rewrite In_Return_returns in Hall; revert Hall; read_trace;
         intros Hall; pick_return Hall; fail).
  - inversion Hok; subst. intros s. rewrite In_Return_returns. read_trace.
    destruct s; simpl; tauto.
  - specialize (Hall batch_load_step).
    rewrite In_Return_returns in Hall. revert Hall. read_trace.
    intros Hall. pick_return Hall. reflexivity.
Qed.

(** X3.  In a returned summary, a step record that has an [error] key has
    [ok] false: a step is never reported both as ok and as failed with an
    exception. *)
Theorem error_implies_not_ok {env : Env}
    (gen load : UseCaseAgent env -> Prog env io_event bool)
    (self : UseCaseAgent env) (w w' : World env) (summary : Summary)
    (t : list event) (s : step) (v : value) :
  run gen load self w = (Ok summary, w', t) ->
  recorded summary s "error" = Some v ->
  recorded summary s "ok" = Some (VBool false).
Proof.
  intros Hrun Herr. apply run_path_of in Hrun.
  destruct Hrun; destruct s; try discriminate Herr; reflexivity.
Qed.

Lemma error_implies_not_ok_witness :
  let self := example_agent (Ok tt) (Some example_graph_arn) in
  exists summary w' t,
    UseCaseAgent_run self (unreachable_s3_world self) = (Ok summary, w', t) /\
    recorded summary check_s3_permissions_step "error" =
      Some (VStr "Could not connect to the endpoint URL") /\
    recorded summary check_s3_permissions_step "ok" = Some (VBool false).
Proof.
  intros self.
  destruct (UseCaseAgent_run self (unreachable_s3_world self))
    as [[r w'] t] eqn:Hrun.
  destruct r as [summary|e]; [|vm_compute in Hrun; discriminate Hrun].
  exists summary, w', t.
  assert (Herr : recorded summary check_s3_permissions_step "error" =
                 Some (VStr "Could not connect to the endpoint URL"))
    by (vm_compute in Hrun; inversion Hrun; reflexivity).
  split; [reflexivity|]. split; [exact Herr|].
  exact (error_implies_not_ok generate_csvs batch_load self
           (unreachable_s3_world self) w' summary t
           check_s3_permissions_step _ Hrun Herr).
Defined.

(** X4.  What a caller can read off the summary alone: [generate_csvs] is
    ok only if the S3 check is ok; [batch_load] is ok only if the three
    steps before it are ok; and any step that is ok or has an error was
    reached, so the graph-permission record has no [error] key then. *)
Theorem summary_ok_is_cumulative {env : Env}
    (gen load : UseCaseAgent env -> Prog env io_event bool)
    (self : UseCaseAgent env) (w w' : World env) (summary : Summary)
    (t : list event) :
  run gen load self w = (Ok summary, w', t) ->
  (recorded summary generate_csvs_step "ok" = Some (VBool true) ->
     recorded summary check_s3_permissions_step "ok" = Some (VBool true)) /\
  (recorded summary batch_load_step "ok" = Some (VBool true) ->
     recorded summary check_neptune_permissions_step "ok" = Some (VBool true) /\
     recorded summary check_s3_permissions_step "ok" = Some (VBool true) /\
     recorded summary generate_csvs_step "ok" = Some (VBool true)) /\
  (forall s, s <> check_neptune_permissions_step ->
     recorded summary s "ok" = Some (VBool true) \/
     recorded summary s "error" <> None ->
     recorded summary check_neptune_permissions_step "error" = None).
Proof.
  intros Hrun. apply run_path_of in Hrun.
  destruct Hrun; (split; [|split]);
    try (intros Hok; try discriminate Hok; repeat split; reflexivity).
  all: intros s Hs [Hok | Herr]; try reflexivity;
    destruct s; try (contradiction Hs; reflexivity);
    try discriminate Hok; try (contradiction Herr; reflexivity).
Qed.

Lemma summary_ok_is_cumulative_witness :
  let self := example_agent (Ok tt) (Some example_graph_arn) in
  let w : World (scripted (Ok tt)) :=
    [ Ok (all_allowed (neptune_actions self));
      Ok (all_allowed (s3_actions self)) ] in
  exists summary w' t,
    UseCaseAgent_run self w = (Ok summary, w', t) /\
    recorded summary batch_load_step "ok" = Some (VBool true) /\
    recorded summary check_neptune_permissions_step "ok" = Some (VBool true) /\
    recorded summary check_s3_permissions_step "ok" = Some (VBool true) /\
    recorded summary generate_csvs_step "ok" = Some (VBool true).
Proof.
  intros self w.
  destruct (UseCaseAgent_run self w) as [[r w'] t] eqn:Hrun.
  destruct r as [summary|e]; [|vm_compute in Hrun; discriminate Hrun].
  exists summary, w', t.
  assert (Hok : recorded summary batch_load_step "ok" = Some (VBool true))
    by (vm_compute in Hrun; inversion Hrun; reflexivity).
  split; [reflexivity|]. split; [exact Hok|].
  exact (proj1 (proj2 (summary_ok_is_cumulative generate_csvs batch_load self
                         w w' summary t Hrun)) Hok).
Defined.

(** ** [simulate_permissions] and the two checks: calls and exceptions *)

(** X5.  [simulate_permissions] hands back what IAM answered, unchanged: the
    same response or the same exception, and the world IAM left.  It calls
    IAM exactly once, with the principal of the agent and the actions and
    resources it was given, and logs a failure exactly when the exception
    is a [ClientError]. *)
Theorem simulate_permissions_passes_through {env : Env}
    (self : UseCaseAgent env) (actions resources : list string)
    (w : World env) :
  exists t,
    simulate_permissions self actions resources w =
      (fst (simulate_principal_policy env (iam self) (principal_arn self)
              actions resources w),
       snd (simulate_principal_policy env (iam self) (principal_arn self)
              actions resources w),
       t) /\
    simulate_calls t = [(principal_arn self, actions, resources)] /\
    (forall e,
       In (Log ERROR "SimulatePrincipalPolicy failed: %s" [AExn e]) t <->
       fst (simulate_principal_policy env (iam self) (principal_arn self)
              actions resources w) = Raise e /\
       is_ClientError e = true).
Proof.
  rewrite simulate_permissions_unfold. cbv zeta.
  destruct (simulate_principal_policy env (iam self) (principal_arn self)
              actions resources w) as [[resp|e] w1]; cbn [fst snd].
  - eexists. split; [reflexivity|]. split; [reflexivity|].
    intros e. split.
    + intros [H | [H | []]]; discriminate H.
    + intros [H _]. discriminate H.
  - destruct (is_ClientError e) eqn:He; eexists;
      (split; [reflexivity|]); (split; [reflexivity|]); intros e0; split.
    + intros [H | [H | [H | []]]]; try discriminate H.
      inversion H; subst. split; [reflexivity | exact He].
    + intros [H _]. inversion H; subst. simpl. tauto.
    + intros [H | [H | []]]; discriminate H.
    + intros [H He0]. inversion H; subst. congruence.
Qed.

(** X6.  [check_neptune_permissions] does not catch anything: when the
    simulation raises, whatever the class of the exception, the check
    raises that same exception and reaches no verdict. *)
Theorem check_neptune_permissions_propagates {env : Env}
    (self : UseCaseAgent env) (w w1 : World env) (e : exn) :
  simulate_principal_policy env (iam self) (principal_arn self)
    (neptune_actions self) (graph_scope self) w = (Raise e, w1) ->
  exists t,
    check_neptune_permissions self w = (Raise e, w1, t) /\
    forall level fmt args,
      In (Log level fmt args) t ->
      fmt <> "Neptune permission simulation OK (all required actions allowed)."
      /\ fmt <> "Neptune permission simulation shows DENIED actions: %s".
Proof.
  unfold check_neptune_permissions, graph_scope, configured_graph_arn, logger.
  cbv [bind emit ret].
  destruct (graph_arn self) as [arn|]; [destruct (str_truthy arn)|]; cbn [negb];
    intros Hsim; rewrite simulate_permissions_unfold; cbv zeta; rewrite Hsim;
    destruct (is_ClientError e); eexists; (split; [reflexivity|]);
    intros level fmt args Hin; cbn [app] in Hin;
    repeat (destruct Hin as [Hin | Hin];
            [ try discriminate Hin; inversion Hin; subst;
              split; discriminate | ]);
    destruct Hin.
Qed.

Lemma check_neptune_permissions_propagates_witness :
  let self := example_agent (Ok tt) (Some example_graph_arn) in
  let e := Exn ClientError "AccessDenied" in
  let w : World (scripted (Ok tt)) := [Raise e] in
  exists t, check_neptune_permissions self w = (Raise e, [], t).
Proof.
  intros self e w.
  destruct (check_neptune_permissions_propagates self w [] e eq_refl)
    as (t & Hrun & _).
  exists t. exact Hrun.
Defined.

(** X7.  A response without results, or without the ["EvaluationResults"]
    key at all, counts as permission granted: [check_neptune_permissions]
    returns true. *)
Theorem empty_response_counts_as_allowed {env : Env}
    (self : UseCaseAgent env) (w w1 : World env) (resp : SimulationResponse) :
  simulate_principal_policy env (iam self) (principal_arn self)
    (neptune_actions self) (graph_scope self) w = (Ok resp, w1) ->
  EvaluationResults resp = None \/ EvaluationResults resp = Some [] ->
  exists t, check_neptune_permissions self w = (Ok true, w1, t).
Proof.
  intros Hsim Hempty.
  destruct (check_neptune_permissions_answered self w w1 resp Hsim)
    as (t0 & Hrun).
  unfold get_EvaluationResults in Hrun.
  destruct Hempty as [Hnone | Hnil]; rewrite ?Hnone, ?Hnil in Hrun;
    eexists; exact Hrun.
Qed.

Lemma empty_response_counts_as_allowed_witness :
  let self := example_agent (Ok tt) (Some example_graph_arn) in
  let resp := {| EvaluationResults := None |} in
  let w : World (scripted (Ok tt)) := [Ok resp] in
  exists t, check_neptune_permissions self w = (Ok true, [], t).
Proof.
  intros self resp w.
  apply (empty_response_counts_as_allowed self w [] resp eq_refl).
  left. reflexivity.
Defined.

(** X8.  The warning about a missing graph ARN is logged exactly when the
    agent has no graph ARN or an empty one. *)
Theorem warning_iff_no_graph_arn {env : Env} (self : UseCaseAgent env)
    (w : World env) :
  In (Log WARNING
        "No graph ARN provided; skipping graph-scoped simulation. You may be using a cluster-based flow."
        [])
     (snd (check_neptune_permissions self w))
  <-> (graph_arn self = None \/ graph_arn self = Some EmptyString).
Proof.
  unfold check_neptune_permissions, logger.
  cbv [bind emit ret].
  destruct (graph_arn self) as [[|c arn]|]; cbn [str_truthy negb];
    rewrite simulate_permissions_unfold; cbv zeta;
    match goal with
    | |- context [simulate_principal_policy ?e ?c ?p ?a ?r ?w] =>
        destruct (simulate_principal_policy e c p a r w) as [[resp|e0] w1]
    end;
    try destruct (neptune_denied (get_EvaluationResults resp));
    try destruct (is_ClientError e0); cbn [snd app];
    (split;
     [ intros Hin; try (right; reflexivity); try (left; reflexivity);
       repeat (destruct Hin as [Hin | Hin]; [discriminate Hin|]); destruct Hin
     | intros [H | H]; try discriminate H; simpl; tauto ]).
Qed.

(** The IAM and S3 calls of [check_s3_permissions]. *)
Lemma check_s3_permissions_calls {env : Env} (self : UseCaseAgent env)
    (w : World env) :
  simulate_calls (snd (check_s3_permissions self w)) =
    [(principal_arn self, s3_actions self, [bucket_arn self; object_arn self])]
  /\ (probes (snd (check_s3_permissions self w)) = [] \/
      probes (snd (check_s3_permissions self w)) = [list_kwargs self])
  /\ handles_created (snd (check_s3_permissions self w)) = [].
Proof.
  rewrite check_s3_permissions_unfold. cbv zeta.
  destruct (simulate_principal_policy env (iam self) (principal_arn self)
              (s3_actions self) [bucket_arn self; object_arn self] w)
    as [[resp|e] w1].
  - destruct (s3_denied (get_EvaluationResults resp)) as [|d ds].
    + destruct (list_objects_v2 env (s3 self) (list_kwargs self) w1)
        as [[[]|e] w2]; [|destruct (is_ClientError e)];
        cbn; repeat split; tauto.
    + cbn. repeat split; tauto.
  - destruct (is_ClientError e); cbn; repeat split; tauto.
Qed.

(** X9.  No [ClientError] comes out of [check_s3_permissions]: whichever of
    its two calls raises it, the check answers false instead. *)
Theorem check_s3_permissions_never_raises_ClientError {env : Env}
    (self : UseCaseAgent env) (w w' : World env) (e : exn)
    (t : list io_event) :
  check_s3_permissions self w = (Raise e, w', t) ->
  is_ClientError e = false.
Proof.
  rewrite check_s3_permissions_unfold. cbv zeta.
  destruct (simulate_principal_policy env (iam self) (principal_arn self)
              (s3_actions self) [bucket_arn self; object_arn self] w)
    as [[resp|e0] w1].
  - destruct (s3_denied (get_EvaluationResults resp)) as [|d ds];
      [|discriminate].
    destruct (list_objects_v2 env (s3 self) (list_kwargs self) w1)
      as [[[]|e1] w2]; [discriminate|].
    destruct (is_ClientError e1) eqn:He1; intros H; inversion H; subst.
    exact He1.
  - destruct (is_ClientError e0) eqn:He0; intros H; inversion H; subst.
    exact He0.
Qed.

Lemma check_s3_permissions_never_raises_ClientError_witness :
  let self := example_agent (Ok tt) (Some example_graph_arn) in
  let e := Exn OtherException "Could not connect to the endpoint URL" in
  let w : World (scripted (Ok tt)) := [Raise e] in
  exists t,
    check_s3_permissions self w = (Raise e, [], t) /\
    is_ClientError e = false.
Proof.
  intros self e w.
  destruct (check_s3_permissions self w) as [[r w'] t] eqn:Hrun.
  assert (Hr : (r, w') = (Raise e, @nil (result SimulationResponse)))
    by (vm_compute in Hrun; inversion Hrun; reflexivity).
  inversion Hr; subst r w'. exists t. split; [reflexivity|].
  exact (check_s3_permissions_never_raises_ClientError self w [] e t Hrun).
Defined.

(** X10.  Whatever happens afterwards, [check_s3_permissions] asks IAM
    exactly once, for the two S3 actions of the agent on two resources: the
    bucket, and the objects of the bucket (all of them when the prefix is
    empty, those under the prefix otherwise). *)
Theorem check_s3_permissions_simulates_bucket_and_objects {env : Env}
    (self : UseCaseAgent env) (w : World env) :
  exists bucket objects,
    simulate_calls (snd (check_s3_permissions self w)) =
      [(principal_arn self, s3_actions self, [bucket; objects])] /\
    bucket = ("arn:aws:s3:::" ++ s3_bucket self)%string /\
    (s3_prefix self = EmptyString -> objects = (bucket ++ "/*")%string) /\
    (s3_prefix self <> EmptyString ->
       objects = (bucket ++ "/" ++ s3_prefix self ++ "/*")%string).
Proof.
  exists (bucket_arn self), (object_arn self).
  split; [apply check_s3_permissions_calls|]. split; [reflexivity|].
  unfold object_arn, bucket_arn.
  assert (Hassoc : forall a b c : string,
            ((a ++ b) ++ c = a ++ b ++ c)%string).
  { intros a b c. induction a as [|x a IH]; simpl; [reflexivity|].
    rewrite IH. reflexivity. }
  split.
  - intros ->. cbn [str_truthy]. symmetry. apply Hassoc.
  - intros Hne. destruct (s3_prefix self) as [|c p]; [contradiction|].
    cbn [str_truthy]. symmetry. apply Hassoc.
Qed.

(** X11.  [check_s3_permissions] lists the bucket at most once, and when it
    does it asks for one key at most ([MaxKeys] is 1), in the bucket of the
    agent, with a [Prefix] argument exactly when the prefix is not empty. *)
Theorem check_s3_permissions_probe_is_minimal {env : Env}
    (self : UseCaseAgent env) (w : World env) :
  length (probes (snd (check_s3_permissions self w))) <= 1 /\
  forall kwargs, In kwargs (probes (snd (check_s3_permissions self w))) ->
    dict_get kwargs "Bucket" = Some (KStr (s3_bucket self)) /\
    dict_get kwargs "MaxKeys" = Some (KInt 1) /\
    dict_get kwargs "Prefix" =
      (if str_truthy (s3_prefix self)
       then Some (KStr (s3_prefix self)) else None) /\
    (forall k, In k (keys kwargs) ->
       k = "Bucket" \/ k = "MaxKeys" \/ k = "Prefix").
Proof.
  destruct (check_s3_permissions_calls self w) as (_ & [Hp | Hp] & _);
    rewrite Hp; simpl; (split; [lia|]); intros kwargs Hin;
    [destruct Hin|].
  destruct Hin as [<- | []]. unfold list_kwargs.
  destruct (str_truthy (s3_prefix self)); cbn;
    repeat split; intros k Hk;
    repeat (destruct Hk as [<- | Hk]; [tauto|]); destruct Hk.
Qed.

(** ** [run()] on the class as shipped *)

Lemma io_events_app (t t' : list event) :
  io_events (t ++ t') = io_events t ++ io_events t'.
Proof. apply flat_map_app. Qed.

Lemma io_events_Io (t : list io_event) : io_events (map Io t) = t.
Proof. induction t as [|e t IH]; simpl; [reflexivity | rewrite IH; reflexivity]. Qed.

Lemma io_events_step_trace (s : step) (t : list io_event) (r : result bool) :
  io_events (step_trace s t r) = t.
Proof.
  unfold step_trace. change (Call s :: ?l) with ([Call s] ++ l).
  rewrite !io_events_app, io_events_Io. simpl. apply app_nil_r.
Qed.

Lemma simulate_calls_app (t t' : list io_event) :
  simulate_calls (t ++ t') = simulate_calls t ++ simulate_calls t'.
Proof. apply flat_map_app. Qed.

Lemma probes_app (t t' : list io_event) :
  probes (t ++ t') = probes t ++ probes t'.
Proof. apply flat_map_app. Qed.

Lemma handles_created_app (t t' : list io_event) :
  handles_created (t ++ t') = handles_created t ++ handles_created t'.
Proof. apply flat_map_app. Qed.

Lemma sleeps_app (t t' : list io_event) : sleeps (t ++ t') = sleeps t ++ sleeps t'.
Proof. apply flat_map_app. Qed.

Create Rewrite HintDb trace_io.
#[local] Hint Rewrite io_events_app io_events_step_trace simulate_calls_app
  probes_app handles_created_app sleeps_app : trace_io.

(** The stubs answer true, leave the world alone and only log and sleep. *)
Lemma generate_csvs_stub {env : Env} (self : UseCaseAgent env) (w : World env) :
  exists t,
    generate_csvs self w = (Ok true, w, t) /\
    simulate_calls t = [] /\ probes t = [] /\ handles_created t = [] /\
    sleeps t = [1%Z].
Proof. eexists. split; [reflexivity|]. repeat split. Qed.

Lemma batch_load_stub {env : Env} (self : UseCaseAgent env) (w : World env) :
  exists t,
    batch_load self w = (Ok true, w, t) /\
    simulate_calls t = [] /\ probes t = [] /\ handles_created t = [] /\
    sleeps t = [1%Z].
Proof. eexists. split; [reflexivity|]. repeat split. Qed.

(** The graph-permission check only talks to IAM. *)
Lemma check_neptune_permissions_only_iam {env : Env} (self : UseCaseAgent env)
    (w : World env) :
  probes (snd (check_neptune_permissions self w)) = [] /\
  handles_created (snd (check_neptune_permissions self w)) = [] /\
  sleeps (snd (check_neptune_permissions self w)) = [].
Proof.
  unfold check_neptune_permissions, logger.
  cbv [bind emit ret].
  destruct (graph_arn self) as [arn|]; [destruct (str_truthy arn)|]; cbn [negb];
    rewrite simulate_permissions_unfold; cbv zeta;
    match goal with
    | |- context [simulate_principal_policy ?e ?c ?p ?a ?r ?w] =>
        destruct (simulate_principal_policy e c p a r w) as [[resp|e0] w1]
    end;
    try destruct (neptune_denied (get_EvaluationResults resp));
    try destruct (is_ClientError e0); repeat split.
Qed.

Lemma check_s3_permissions_no_sleep {env : Env} (self : UseCaseAgent env)
    (w : World env) :
  sleeps (snd (check_s3_permissions self w)) = [].
Proof.
  rewrite check_s3_permissions_unfold. cbv zeta.
  destruct (simulate_principal_policy env (iam self) (principal_arn self)
              (s3_actions self) [bucket_arn self; object_arn self] w)
    as [[resp|e] w1].
  - destruct (s3_denied (get_EvaluationResults resp)) as [|d ds];
      [|reflexivity].
    destruct (list_objects_v2 env (s3 self) (list_kwargs self) w1)
      as [[[]|e] w2]; [|destruct (is_ClientError e)]; reflexivity.
  - destruct (is_ClientError e); reflexivity.
Qed.

(** X12.  With the two stubs of the repository, a run ends with
    [batch_load] ok exactly when both permission checks returned true, and
    with [generate_csvs] ok exactly when the S3 check returned true; the
    world is then as the S3 check left it.  (A run that returns no summary
    has let an exception escape that is not an instance of [Exception].) *)
Theorem shipped_run_succeeds_iff_checks_pass {env : Env}
    (self : UseCaseAgent env) (w : World env) :
  exists r w' t,
    UseCaseAgent_run self w = (r, w', t) /\
    match r with
    | Ok summary =>
        (recorded summary batch_load_step "ok" = Some (VBool true) <->
         exists w1 t1 t2,
           check_neptune_permissions self w = (Ok true, w1, t1) /\
           check_s3_permissions self w1 = (Ok true, w', t2)) /\
        (recorded summary generate_csvs_step "ok" = Some (VBool true) <->
         exists bn w1 t1 t2,
           check_neptune_permissions self w = (Ok bn, w1, t1) /\
           check_s3_permissions self w1 = (Ok true, w', t2))
    | Raise e => is_Exception e = false
    end.
Proof.
  unfold UseCaseAgent_run.
  destruct (run_outcome generate_csvs batch_load self w)
    as (r & w' & t & Hrun & Hp).
  exists r, w', t. split; [exact Hrun|]. clear Hrun.
  destruct r as [summary|e]; cbn [RunOutcome] in Hp;
    [|destruct Hp; assumption].
  destruct Hp;
    repeat match goal with
      | H : generate_csvs _ _ = _ |- _ => inversion H; subst; clear H
      | H : batch_load _ _ = _ |- _ => inversion H; subst; clear H
      end;
    (split; split;
     [ intros Hok; try discriminate Hok
     | intros (w1' & t1' & t2' & HN & HS);
       try (rewrite HN in *; try discriminate;
            match goal with
            | H : (_, _, _) = (_, _, _) |- _ => inversion H; subst; clear H
            end);
       try (rewrite HS in *; discriminate); try reflexivity
     | intros Hok; try discriminate Hok
     | intros (bn' & w1' & t1' & t2' & HN & HS);
       try (rewrite HN in *; try discriminate;
            match goal with
            | H : (_, _, _) = (_, _, _) |- _ => inversion H; subst; clear H
            end);
       try (rewrite HS in *; discriminate); try reflexivity ]).
  all: try (do 3 eexists; split; eassumption).
  all: try (do 4 eexists; split; eassumption).
Qed.

(** X13.  A run of the class as shipped creates no client, asks IAM once
    for the graph actions and at most once more, after that, for the S3
    actions, lists the bucket at most once, and sleeps exactly one second
    for each stub it enters, of which there are at most two.  This holds of
    a run that returns a summary and of one that lets an exception
    escape. *)
Theorem shipped_run_calls_are_bounded {env : Env}
    (self : UseCaseAgent env) (w : World env) :
  exists r w' t,
    UseCaseAgent_run self w = (r, w', t) /\
    handles_created (io_events t) = [] /\
    (exists rest,
       simulate_calls (io_events t) =
         (principal_arn self, neptune_actions self, graph_scope self) :: rest /\
       (rest = [] \/
        rest = [(principal_arn self, s3_actions self,
                 [bucket_arn self; object_arn self])])) /\
    length (probes (io_events t)) <= 1 /\
    sleeps (io_events t) =
      repeat 1%Z (length (filter is_stub (calls t))) /\
    length (filter is_stub (calls t)) <= 2.
Proof.
  unfold UseCaseAgent_run.
  destruct (run_outcome generate_csvs batch_load self w)
    as (r & w' & t & Hrun & Hp).
  exists r, w', t. split; [exact Hrun|]. clear Hrun.
  destruct r as [summary|e]; cbn [RunOutcome] in Hp; destruct Hp;
    repeat match goal with
      | H : generate_csvs _ _ = _ |- _ => inversion H; subst; clear H
      | H : batch_load _ _ = _ |- _ => inversion H; subst; clear H
      end;
    read_trace; cbn [filter is_stub length repeat];
    autorewrite with trace_io; cbn [io_events log_line flat_map app];
    repeat match goal with
      | H : check_neptune_permissions ?a ?x = (_, _, ?t1) |- _ =>
          let Hc := fresh "Hc" in
          let Ho := fresh "Ho" in
          pose proof (check_neptune_permissions_call a x) as Hc;
          pose proof (check_neptune_permissions_only_iam a x) as Ho;
          rewrite H in Hc, Ho; cbn [snd] in Hc, Ho;
          destruct Ho as (? & ? & ?); clear H
      | H : check_s3_permissions ?a ?x = (_, _, ?t2) |- _ =>
          let Hc := fresh "Hc" in
          let Ho := fresh "Ho" in
          pose proof (check_s3_permissions_calls a x) as Hc;
          pose proof (check_s3_permissions_no_sleep a x) as Ho;
          rewrite H in Hc, Ho; cbn [snd] in Hc, Ho;
          destruct Hc as (? & ? & ?); clear H
      end;
    autorewrite with trace_io;
    cbn [simulate_calls probes handles_created sleeps flat_map app];
    repeat match goal with
      | H : _ = _ |- _ => rewrite H
      end;
    cbn [app length].
  all: split; [reflexivity|].
  all: split; [eexists; split; [reflexivity|]; tauto|].
  all: split;
    [ try match goal with
        | H : probes _ = [] \/ probes _ = [_] |- _ =>
            destruct H as [H | H]; rewrite H
        end; simpl; lia
    | ].
  all: split; [reflexivity | lia].
Qed.

(** ** The constructor *)

(** What [lstrip] takes off is made of the given characters, and what it
    leaves does not start with one. *)
Lemma lstrip_spec (cs : list ascii) (s : string) :
  exists a,
    list_ascii_of_string s = a ++ list_ascii_of_string (lstrip cs s) /\
    Forall (fun c => existsb (Ascii.eqb c) cs = true) a /\
    (forall c, hd_error (list_ascii_of_string (lstrip cs s)) = Some c ->
       existsb (Ascii.eqb c) cs = false).
Proof.
  induction s as [|c s IH]; simpl.
  - exists []. repeat split; [constructor | discriminate].
  - destruct (existsb (Ascii.eqb c) cs) eqn:Hc.
    + destruct IH as (a & Heq & Hall & Hhd).
      exists (c :: a). simpl. rewrite <- Heq.
      repeat split; [constructor; assumption | exact Hhd].
    + exists []. simpl. repeat split; [constructor|].
      intros c0 H. inversion H; subst. exact Hc.
Qed.

Lemma list_ascii_of_string_rev (s : string) :
  list_ascii_of_string (string_rev s) = rev (list_ascii_of_string s).
Proof. unfold string_rev. apply list_ascii_of_string_of_list_ascii. Qed.

(** The same at the other end. *)
Lemma rstrip_spec (cs : list ascii) (s : string) :
  exists z,
    list_ascii_of_string s = list_ascii_of_string (rstrip cs s) ++ z /\
    Forall (fun c => existsb (Ascii.eqb c) cs = true) z /\
    (forall c, hd_error (rev (list_ascii_of_string (rstrip cs s))) = Some c ->
       existsb (Ascii.eqb c) cs = false).
Proof.
  destruct (lstrip_spec cs (string_rev s)) as (a & Heq & Hall & Hhd).
  rewrite list_ascii_of_string_rev in Heq.
  exists (rev a). unfold rstrip. rewrite list_ascii_of_string_rev.
  repeat split.
  - rewrite <- rev_app_distr, <- Heq. symmetry. apply rev_involutive.
  - apply Forall_rev. exact Hall.
  - intros c. rewrite rev_involutive. apply Hhd.
Qed.

(** [str.strip]: the result sits inside the argument between two runs of
    the stripped characters, and has none of them at either end. *)
Lemma strip_spec (chars s : string) :
  let cs := list_ascii_of_string chars in
  exists a z,
    list_ascii_of_string s = a ++ list_ascii_of_string (strip chars s) ++ z /\
    Forall (fun c => existsb (Ascii.eqb c) cs = true) a /\
    Forall (fun c => existsb (Ascii.eqb c) cs = true) z /\
    (forall c, hd_error (list_ascii_of_string (strip chars s)) = Some c ->
       existsb (Ascii.eqb c) cs = false) /\
    (forall c, hd_error (rev (list_ascii_of_string (strip chars s))) = Some c ->
       existsb (Ascii.eqb c) cs = false).
Proof.
  intros cs. unfold strip. fold cs.
  destruct (lstrip_spec cs s) as (a & Ha & Halla & Hhd).
  destruct (rstrip_spec cs (lstrip cs s)) as (z & Hz & Hallz & Hlast).
  exists a, z. repeat split; try assumption.
  - rewrite Ha at 1. rewrite Hz at 1. reflexivity.
  - intros c Hc. apply Hhd. rewrite Hz.
    destruct (list_ascii_of_string (rstrip cs (lstrip cs s))) as [|c0 r];
      [discriminate Hc | exact Hc].
Qed.

Lemma init_fields {env : Env}
    (principal_arn0 s3_bucket0 s3_prefix0 : string) (graph_arn0 : option string)
    (neptune_mode0 : string) (w w' : World env) (agent : UseCaseAgent env)
    (t : list io_event) :
  __init__ principal_arn0 s3_bucket0 s3_prefix0 graph_arn0 neptune_mode0 w
    = (Ok agent, w', t) ->
  exists c1 w1 c2 w2 c3,
    boto3_client env "iam" w = (Ok c1, w1) /\
    boto3_client env "s3" w1 = (Ok c2, w2) /\
    boto3_client env "sts" w2 = (Ok c3, w') /\
    t = [Boto3Client "iam"; Boto3Client "s3"; Boto3Client "sts"] /\
    (neptune_mode0 = "graph" \/ neptune_mode0 = "db") /\
    agent =
      {| principal_arn := principal_arn0;
         s3_bucket := s3_bucket0;
         s3_prefix := strip "/" s3_prefix0;
         graph_arn := graph_arn0;
         neptune_mode := neptune_mode0;
         iam := c1;
         s3 := c2;
         sts := c3;
         prefix := ("neptune-" ++ neptune_mode0)%string;
         neptune_actions :=
           map (fun a => ("neptune-" ++ neptune_mode0 ++ ":" ++ a)%string)
             ["ReadDataViaQuery"; "WriteDataViaQuery"; "DeleteDataViaQuery"];
         s3_actions := ["s3:GetObject"; "s3:ListBucket"] |}.
Proof.
  unfold __init__, client. cbv [bind ret raise].
  destruct (boto3_client env "iam" w) as [[c1|e1] w1] eqn:H1; [|discriminate].
  destruct (boto3_client env "s3" w1) as [[c2|e2] w2] eqn:H2; [|discriminate].
  destruct (boto3_client env "sts" w2) as [[c3|e3] w3] eqn:H3; [|discriminate].
  destruct (String.eqb neptune_mode0 "graph") eqn:Hg.
  - apply String.eqb_eq in Hg. subst. intros H. inversion H; subst.
    exists c1, w1, c2, w2, c3.
    repeat split; try reflexivity; try assumption; tauto.
  - destruct (String.eqb neptune_mode0 "db") eqn:Hd; [|discriminate].
    apply String.eqb_eq in Hd. subst. intros H. inversion H; subst.
    exists c1, w1, c2, w2, c3.
    repeat split; try reflexivity; try assumption; tauto.
Qed.

(** X14.  When the constructor returns an agent, the mode was "graph" or
    "db", exactly the three clients IAM, S3 and STS were created, in this
    order, and the graph actions of the agent are read, write and delete
    via query, each in the namespace "neptune-" followed by the mode; the
    S3 actions are get-object and list-bucket in either mode. *)
Theorem init_derives_actions_from_mode {env : Env}
    (principal_arn0 s3_bucket0 s3_prefix0 : string) (graph_arn0 : option string)
    (neptune_mode0 : string) (w w' : World env) (agent : UseCaseAgent env)
    (t : list io_event) :
  __init__ principal_arn0 s3_bucket0 s3_prefix0 graph_arn0 neptune_mode0 w
    = (Ok agent, w', t) ->
  (neptune_mode0 = "graph" \/ neptune_mode0 = "db") /\
  handles_created t = ["iam"; "s3"; "sts"] /\
  principal_arn agent = principal_arn0 /\
  s3_bucket agent = s3_bucket0 /\
  graph_arn agent = graph_arn0 /\
  neptune_actions agent =
    [ ("neptune-" ++ neptune_mode0 ++ ":ReadDataViaQuery")%string;
      ("neptune-" ++ neptune_mode0 ++ ":WriteDataViaQuery")%string;
      ("neptune-" ++ neptune_mode0 ++ ":DeleteDataViaQuery")%string ] /\
  s3_actions agent = ["s3:GetObject"; "s3:ListBucket"].
Proof.
  intros Hinit.
  destruct (init_fields _ _ _ _ _ _ _ _ _ Hinit)
    as (c1 & w1 & c2 & w2 & c3 & _ & _ & _ & -> & Hmode & ->).
  repeat split; try reflexivity. exact Hmode.
Qed.

Lemma init_derives_actions_from_mode_witness :
  let w : World (scripted (Ok tt)) := [] in
  exists agent,
    __init__ "arn:aws:iam::123456789012:role/YourLambdaExecutionRole"
      "your-csv-bucket-name" "neptune/csvs" None "db" w = (Ok agent, w, 
      [Boto3Client "iam"; Boto3Client "s3"; Boto3Client "sts"]) /\
    neptune_actions agent =
      [ "neptune-db:ReadDataViaQuery"; "neptune-db:WriteDataViaQuery";
        "neptune-db:DeleteDataViaQuery" ].
Proof.
  intros w. eexists. split; [reflexivity|].
  exact (proj1 (proj2 (proj2 (proj2 (proj2 (proj2
           (init_derives_actions_from_mode (env := scripted (Ok tt))
              _ _ _ _ "db" w w _ _ eq_refl))))))).
Defined.

(** X15.  The prefix the agent keeps is the given one without the slashes
    at its two ends: the given prefix is some slashes, then the kept
    prefix, then some slashes, and the kept prefix neither starts nor ends
    with a slash. *)
Theorem init_strips_slashes {env : Env}
    (principal_arn0 s3_bucket0 s3_prefix0 : string) (graph_arn0 : option string)
    (neptune_mode0 : string) (w w' : World env) (agent : UseCaseAgent env)
    (t : list io_event) :
  __init__ principal_arn0 s3_bucket0 s3_prefix0 graph_arn0 neptune_mode0 w
    = (Ok agent, w', t) ->
  let kept := list_ascii_of_string (s3_prefix agent) in
  exists a z,
    list_ascii_of_string s3_prefix0 = a ++ kept ++ z /\
    Forall (eq "/"%char) a /\
    Forall (eq "/"%char) z /\
    hd_error kept <> Some "/"%char /\
    hd_error (rev kept) <> Some "/"%char.
Proof.
  intros Hinit kept.
  destruct (init_fields _ _ _ _ _ _ _ _ _ Hinit)
    as (c1 & w1 & c2 & w2 & c3 & _ & _ & _ & _ & _ & Hagent).
  assert (Hkept : kept = list_ascii_of_string (strip "/" s3_prefix0))
    by (unfold kept; rewrite Hagent; reflexivity).
  destruct (strip_spec "/" s3_prefix0) as (a & z & Heq & Ha & Hz & Hhd & Hlast).
  assert (Hslash : forall c,
            existsb (Ascii.eqb c) (list_ascii_of_string "/") = true ->
            "/"%char = c).
  { intros c Hc. simpl in Hc. rewrite orb_false_r in Hc.
    symmetry. apply Ascii.eqb_eq. exact Hc. }
  exists a, z. rewrite Hkept. repeat split.
  - exact Heq.
  - eapply Forall_impl; [exact Hslash | exact Ha].
  - eapply Forall_impl; [exact Hslash | exact Hz].
  - intros H. specialize (Hhd _ H). discriminate Hhd.
  - intros H. specialize (Hlast _ H). discriminate Hlast.
Qed.

Lemma init_strips_slashes_witness :
  let w : World (scripted (Ok tt)) := [] in
  exists agent t,
    __init__ "arn:aws:iam::123456789012:role/YourLambdaExecutionRole"
      "your-csv-bucket-name" "//neptune/csvs/" None "graph" w
      = (Ok agent, w, t) /\
    s3_prefix agent = "neptune/csvs" /\
    exists a z,
      list_ascii_of_string "//neptune/csvs/" =
        a ++ list_ascii_of_string (s3_prefix agent) ++ z /\
      Forall (eq "/"%char) a /\ Forall (eq "/"%char) z.
Proof.
  intros w. eexists. eexists. split; [reflexivity|]. split; [reflexivity|].
  destruct (init_strips_slashes (env := scripted (Ok tt))
              "arn:aws:iam::123456789012:role/YourLambdaExecutionRole"
              "your-csv-bucket-name" "//neptune/csvs/" None "graph" w w
              _ _ eq_refl)
    as (a & z & Heq & Ha & Hz & _).
  exists a, z. repeat split; assumption.
Defined.

(** X16.  A client that cannot be created stops the constructor at once:
    the exception of [boto3.client] comes out as it is, whatever the mode
    (so before any complaint about the mode), and no further client is
    asked for. *)
Theorem init_propagates_client_error {env : Env}
    (principal_arn0 s3_bucket0 s3_prefix0 : string) (graph_arn0 : option string)
    (neptune_mode0 : string) (w : World env) :
  (forall e w1,
     boto3_client env "iam" w = (Raise e, w1) ->
     __init__ principal_arn0 s3_bucket0 s3_prefix0 graph_arn0 neptune_mode0 w
       = (Raise e, w1, [Boto3Client "iam"])) /\
  (forall c1 w1 e w2,
     boto3_client env "iam" w = (Ok c1, w1) ->
     boto3_client env "s3" w1 = (Raise e, w2) ->
     __init__ principal_arn0 s3_bucket0 s3_prefix0 graph_arn0 neptune_mode0 w
       = (Raise e, w2, [Boto3Client "iam"; Boto3Client "s3"])) /\
  (forall c1 w1 c2 w2 e w3,
     boto3_client env "iam" w = (Ok c1, w1) ->
     boto3_client env "s3" w1 = (Ok c2, w2) ->
     boto3_client env "sts" w2 = (Raise e, w3) ->
     __init__ principal_arn0 s3_bucket0 s3_prefix0 graph_arn0 neptune_mode0 w
       = (Raise e, w3,
          [Boto3Client "iam"; Boto3Client "s3"; Boto3Client "sts"])).
Proof.
  unfold __init__, client. cbv [bind ret raise].
  repeat split.
  - intros e w1 ->. reflexivity.
  - intros c1 w1 e w2 -> ->. reflexivity.
  - intros c1 w1 c2 w2 e w3 -> -> ->. reflexivity.
Qed.

Lemma init_propagates_client_error_witness :
  __init__ (env := without_s3)
    "arn:aws:iam::123456789012:role/YourLambdaExecutionRole"
    "your-csv-bucket-name" "neptune/csvs" None "cluster" tt
  = (Raise no_region, tt, [Boto3Client "iam"; Boto3Client "s3"]).
Proof.
  exact (proj1 (proj2
           (init_propagates_client_error (env := without_s3)
              "arn:aws:iam::123456789012:role/YourLambdaExecutionRole"
              "your-csv-bucket-name" "neptune/csvs" None "cluster" tt))
           "iam" tt no_region tt eq_refl eq_refl).
Defined.

(** ** The script *)

Lemma for_each_map {env : Env} {E A B : Type} (f : A -> B)
    (body : B -> Prog env E unit) (xs : list A) (w : World env) :
  for_each xs (fun x => body (f x)) w = for_each (map f xs) body w.
Proof.
  revert w. induction xs as [|x xs IH]; intros w; [reflexivity|].
  cbn [for_each map]. unfold bind. destruct (body (f x) w) as [[[u|e] w1] t1];
    [rewrite IH|]; reflexivity.
Qed.

(** Printing lines one after the other stops at the first [print] that
    raises. *)
Lemma say_lines {env : Env}
    (print : printed_text -> World env -> result unit * World env)
    (lines : list printed_text) :
  forall w, exists r w' said rest,
    for_each lines (say print) w = (r, w', map Print said) /\
    lines = said ++ rest /\
    match r with
    | Ok _ => rest = []
    | Raise e =>
        exists earlier x w0 w1,
          said = earlier ++ [x] /\ print x w0 = (Raise e, w1)
    end.
Proof.
  induction lines as [|x lines IH]; intros w.
  - exists (Ok tt), w, [], []. repeat split.
  - cbn [for_each]. unfold bind, say at 1.
    destruct (print x w) as [[u|e] w1] eqn:Hx.
    + destruct (IH w1) as (r & w' & said & rest & Hrun & Hsplit & Hr).
      rewrite Hrun. exists r, w', (x :: said), rest.
      split; [reflexivity|]. split; [rewrite Hsplit; reflexivity|].
      destruct r as [u'|e]; [exact Hr|].
      destruct Hr as (earlier & y & w0 & w2 & Hsaid & Hy).
      exists (x :: earlier), y, w0, w2.
      split; [rewrite Hsaid; reflexivity | exact Hy].
    + exists (Raise e), w1, [x], lines. split; [reflexivity|].
      split; [reflexivity|]. exists [], x, w, w1.
      split; [reflexivity | exact Hx].
Qed.



(** ** The quote animation *)

Section Animation.
Variable Host : Type.
Variable randbelow : nat -> Host -> result nat * Host.
Variable os_name : string.
Variable stdout_write : string -> Host -> result unit * Host.
Variable time_sleep : Z -> Host -> result unit * Host.
Variable os_system : string -> Host -> result Z * Host.

Let raised_outside :=
  Testing.raised_outside Host randbelow stdout_write time_sleep.

(** [random.choice] on a list of the script gives one of its elements,
    unless the draw raises. *)
Lemma choice_of (seq : list string) (g : Host) :
  seq <> [] ->
  exists r g',
    Testing.choice Host randbelow seq g = (r, g', []) /\
    match r with
    | Ok x => In x seq
    | Raise e => exists n g0 g1, randbelow n g0 = (Raise e, g1)
    end.
Proof.
  intros Hne. unfold Testing.choice.
  destruct seq as [|x0 seq0]; [contradiction Hne; reflexivity|].
  destruct (randbelow (length (x0 :: seq0)) g) as [[i|e] g1] eqn:Hdraw.
  - destruct (nth_error (x0 :: seq0) (i mod length (x0 :: seq0)))
      as [x|] eqn:Hx.
    + exists (Ok x), g1. split; [reflexivity|]. eapply nth_error_In. exact Hx.
    + apply nth_error_None in Hx.
      pose proof (Nat.mod_upper_bound i (length (x0 :: seq0))) as Hlt.
      simpl in Hx, Hlt. lia.
  - exists (Raise e), g1. split; [reflexivity|]. do 3 eexists. exact Hdraw.
Qed.

(** Some colors, for the characters a stopped animation did not reach. *)
Lemma some_colors (n : nat) :
  exists cs, length cs = n /\ Forall (fun c => In c Testing.colors) cs.
Proof.
  exists (repeat (Testing.esc ++ "[91m")%string n).
  split; [apply repeat_length|].
  apply Forall_forall. intros c Hc. apply repeat_spec in Hc. subst c.
  left. reflexivity.
Qed.

(** The loop does the frames of the text in order and stops only where a
    draw, a write or a sleep raises. *)
Lemma animate_loop_frames (text : list string) :
  forall g, exists r g' t cs rest,
    Testing.animate_loop Host randbelow stdout_write time_sleep text g
      = (r, g', t) /\
    length cs = length text /\
    Forall (fun c => In c Testing.colors) cs /\
    Testing.frames cs text = t ++ rest /\
    match r with
    | Ok _ => rest = []
    | Raise e => raised_outside e
    end.
Proof.
  induction text as [|char text IH]; intros g.
  - exists (Ok tt), g, [], [], []. repeat split. constructor.
  - destruct (choice_of Testing.colors g ltac:(discriminate))
      as (rc & g1 & Hc & Hrc).
    cbn [Testing.animate_loop]. unfold Testing.and_then at 1. rewrite Hc.
    destruct rc as [c|e].
    2:{ destruct (some_colors (length (char :: text))) as (cs & Hlen & Hall).
        do 3 eexists. exists cs, (Testing.frames cs (char :: text)).
        split; [reflexivity|]. split; [exact Hlen|]. split; [exact Hall|].
        split; [reflexivity|]. left. exact Hrc. }
    unfold Testing.and_then at 1. unfold Testing.write at 1.
    destruct (stdout_write (c ++ char)%string g1) as [[u|e] g2] eqn:Hw.
    + unfold Testing.and_then at 1. unfold Testing.sleep at 1.
      destruct (time_sleep 50%Z g2) as [[u'|e] g3] eqn:Hs.
      * destruct (IH g3)
          as (r & g' & t & cs & rest & Hrun & Hlen & Hall & Hfr & Hr).
        rewrite Hrun. exists r, g'. eexists. exists (c :: cs), rest.
        split; [reflexivity|]. split; [simpl; rewrite Hlen; reflexivity|].
        split; [constructor; assumption|].
        split; [|exact Hr].
        unfold Testing.frames in *. simpl. rewrite Hfr. reflexivity.
      * destruct (some_colors (length text)) as (cs & Hlen & Hall).
        do 3 eexists. exists (c :: cs), (Testing.frames cs text).
        split; [reflexivity|]. split; [simpl; rewrite Hlen; reflexivity|].
        split; [constructor; assumption|].
        split; [reflexivity|].
        right. right. exists 50%Z, g2, g3. exact Hs.
    + destruct (some_colors (length text)) as (cs & Hlen & Hall).
      do 3 eexists.
      exists (c :: cs), (Testing.SleepMs 50 :: Testing.frames cs text).
      split; [reflexivity|]. split; [simpl; rewrite Hlen; reflexivity|].
      split; [constructor; assumption|].
      split; [reflexivity|].
      right. left. exists (c ++ char)%string, g1, g2. exact Hw.
Qed.

(** [animate_text], the same way. *)
Lemma animate_text_animation (text : list string) (g : Host) :
  exists r g' t cs rest,
    Testing.animate_text Host randbelow stdout_write time_sleep text g
      = (r, g', t) /\
    length cs = length text /\
    Forall (fun c => In c Testing.colors) cs /\
    Testing.animation cs text = t ++ rest /\
    match r with
    | Ok _ => rest = []
    | Raise e => raised_outside e
    end.
Proof.
  destruct (animate_loop_frames text g)
    as (r & g' & t & cs & rest & Hloop & Hlen & Hall & Hfr & Hr).
  unfold Testing.animate_text, Testing.and_then. rewrite Hloop.
  destruct r as [u|e].
  - subst rest. rewrite app_nil_r in Hfr. unfold Testing.write.
    destruct (stdout_write (Testing.esc ++ "[0m" ++ newline)%string g')
      as [[u'|e] g2] eqn:Hw;
      do 3 eexists; exists cs, [];
      (split; [reflexivity|]); (split; [exact Hlen|]);
      (split; [exact Hall|]);
      (split; [unfold Testing.animation; rewrite Hfr, app_nil_r; reflexivity|]);
      [reflexivity|].
    right. left. do 3 eexists. exact Hw.
  - do 3 eexists.
    exists cs,
      (rest ++ [Testing.Stdout (Testing.esc ++ "[0m" ++ newline)%string]).
    split; [reflexivity|]. split; [exact Hlen|]. split; [exact Hall|].
    split; [unfold Testing.animation; rewrite Hfr, app_assoc; reflexivity|].
    exact Hr.
Qed.


End Animation.
